(** * lux: the command-line application (app/app.go)

    A shallow embedding of [app.New]'s [Action] closure and flag table and
    of [download], together with the parts of Go's [strings], [unicode] and
    [unicode/utf8] packages that [strings.TrimSpace] runs through.

    The collaborators the application calls ([os], [utils.ParseInputFile],
    [request.SetOptions], [extractors.Extract], [downloader.Download],
    [json.Encoder.Encode], [fmt]) are not part of the file: they are the
    fields of the class [World], functions on an abstract environment.
    Every call of a collaborator is also recorded as an [event], so that
    "is called", "is never called" and "is called in this order" are
    statements about the list of events a run produces. *)

From Stdlib Require Import List String Ascii ZArith Bool Arith Lia.
Import ListNotations.

Local Open Scope string_scope.
Local Open Scope list_scope.
Local Open Scope Z_scope.

(* ================================================================== *)
(** * Go values *)

(** Go's [error] interface, with the two concrete errors the file builds
    itself: [errors.New] and [cli.Exit].  A collaborator may return any
    value of the type. *)
Inductive error : Type :=
| errorString (s : string)
| exitError (message : string) (exitCode : Z).

(** The pair [(value, error)] a Go call returns, read the way the callers
    read it: the value is looked at only when the error is nil. *)
Inductive result (A : Type) : Type :=
| Ok (a : A)
| Failed (err : error).
Arguments Ok {A} a.
Arguments Failed {A} err.

Module errors.
Definition New (text : string) : error := errorString text.
End errors.

(** [int(u)] for a [uint] [u], on a 64-bit platform. *)
Definition int (u : Z) : Z :=
  let v := u mod 2 ^ 64 in
  if v <? 2 ^ 63 then v else v - 2 ^ 64.

(** The string ["\t"]. *)
Definition TAB : string := String "009"%char EmptyString.

(* ================================================================== *)
(** * The packages the application imports: option structs *)

Module cli.
  (** [*cli.Context]: the positional arguments and the flag look-ups
      [c.Bool(name)], [c.String(name)], [c.Uint(name)]. *)
Record Context : Type := {
    Args : list string;
    Bool : string -> bool;
    String : string -> string;
    Uint : string -> Z
  }.

Definition Exit (message : string) (exitCode : Z) : error :=
    exitError message exitCode.
End cli.

Module request.
Record Options : Type := {
    RetryTimes : Z;
    Cookie : string;
    UserAgent : string;
    Refer : string;
    Debug : bool;
    Silent : bool
  }.
End request.

Module extractors.
Record Options : Type := {
    Playlist : bool;
    Items : string;
    ItemStart : Z;
    ItemEnd : Z;
    ThreadNumber : Z;
    EpisodeTitleOnly : bool;
    Cookie : string;
    YoukuCcode : string;
    YoukuCkey : string;
    YoukuPassword : string
  }.

  (** [*extractors.Data]: of its fields the application reads [Err] only;
      the others are the payload handed on to the downloader. *)
Record Data (Payload : Type) : Type := {
    payload : Payload;
    Err : option error
  }.
Arguments payload {Payload} d.
Arguments Err {Payload} d.
End extractors.

Module downloader.
Record Options : Type := {
    Silent : bool;
    InfoOnly : bool;
    Stream : string;
    Refer : string;
    OutputPath : string;
    OutputName : string;
    FileNameLength : Z;
    Caption : bool;
    MultiThread : bool;
    ThreadNumber : Z;
    RetryTimes : Z;
    ChunkSizeMB : Z;
    UseAria2RPC : bool;
    Aria2Token : string;
    Aria2Method : string;
    Aria2Addr : string
  }.

Record Downloader : Type := { option : Options }.

Definition New (o : Options) : Downloader := {| option := o |}.
End downloader.

Module json.
Inductive Writer : Type := Stdout.

Record Encoder : Type := {
    w : Writer;
    indentPrefix : string;
    indentValue : string;
    escapeHTML : bool
  }.

Definition NewEncoder (out : Writer) : Encoder :=
    {| w := out; indentPrefix := EmptyString; indentValue := EmptyString;
       escapeHTML := true |}.

Definition SetIndent (e : Encoder) (prefix indent : string) : Encoder :=
    {| w := w e; indentPrefix := prefix; indentValue := indent;
       escapeHTML := escapeHTML e |}.

Definition SetEscapeHTML (e : Encoder) (on : bool) : Encoder :=
    {| w := w e; indentPrefix := indentPrefix e; indentValue := indentValue e;
       escapeHTML := on |}.
End json.

(* ================================================================== *)
(** * Go's [unicode/utf8], [unicode] and [strings], as far as
      [strings.TrimSpace] goes

    A Go string is a sequence of bytes: here a [list ascii] inside the
    library and a [string] at its border.  A slice [s[i:]] is the suffix
    [skipn i s], a slice [s[:i]] the prefix [firstn i s].  Runes are [Z]. *)

Definition byte (c : ascii) : Z := Z.of_N (N_of_ascii c).

(** [s[i]] as a number. *)
Definition at_ (s : list ascii) (i : nat) : Z := byte (nth i s zero).

(** A value brought back into [int32]. *)
Definition wrap32 (v : Z) : Z := (v + 2 ^ 31) mod 2 ^ 32 - 2 ^ 31.

Module utf8.
Definition RuneError : Z := 0xFFFD.
Definition RuneSelf : Z := 0x80.
Definition UTFMax : Z := 4.

Definition maskx : Z := 0x3F.
Definition mask2 : Z := 0x1F.
Definition mask3 : Z := 0x0F.
Definition mask4 : Z := 0x07.

Definition locb : Z := 0x80.
Definition hicb : Z := 0xBF.

Definition xx : Z := 0xF1. (* invalid: size 1 *)
Definition as_ : Z := 0xF0. (* ASCII: size 1 *)
Definition s1 : Z := 0x02. (* accept 0, size 2 *)
Definition s2 : Z := 0x13. (* accept 1, size 3 *)
Definition s3 : Z := 0x03. (* accept 0, size 3 *)
Definition s4 : Z := 0x23. (* accept 2, size 3 *)
Definition s5 : Z := 0x34. (* accept 3, size 4 *)
Definition s6 : Z := 0x04. (* accept 0, size 4 *)
Definition s7 : Z := 0x44. (* accept 4, size 4 *)

(** The table [first[256]], row by row. *)
Definition first (b : Z) : Z :=
  if b <? 0x80 then as_            (* 0x00-0x7F *)
  else if b <? 0xC2 then xx        (* 0x80-0xBF, 0xC0, 0xC1 *)
  else if b <? 0xE0 then s1        (* 0xC2-0xDF *)
  else if b =? 0xE0 then s2
  else if b <? 0xED then s3        (* 0xE1-0xEC *)
  else if b =? 0xED then s4
  else if b <? 0xF0 then s3        (* 0xEE, 0xEF *)
  else if b =? 0xF0 then s5
  else if b <? 0xF4 then s6        (* 0xF1-0xF3 *)
  else if b =? 0xF4 then s7
  else xx.                         (* 0xF5-0xFF *)

(** The table [acceptRanges[16]]: the bounds of the second byte. *)
Definition acceptRanges (i : Z) : Z * Z :=
  if i =? 0 then (locb, hicb)
  else if i =? 1 then (0xA0, hicb)
  else if i =? 2 then (locb, 0x9F)
  else if i =? 3 then (0x90, hicb)
  else if i =? 4 then (locb, 0x8F)
  else (0, 0).

Definition RuneStart (b : Z) : bool := negb (Z.land b 0xC0 =? 0x80).

(** [func DecodeRuneInString(s string) (rune, int)] *)
Definition DecodeRuneInString (s : list ascii) : Z * nat :=
  let n := List.length s in
  if (n <? 1)%nat then (RuneError, 0%nat)
  else
    let s0 := at_ s 0 in
    let x := first s0 in
    if as_ <=? x then
      (* mask is 0 for ASCII and all ones for an invalid byte *)
      let mask := Z.shiftr (wrap32 (Z.shiftl x 31)) 31 in
      (Z.lor (Z.land s0 (Z.lnot mask)) (Z.land RuneError mask), 1%nat)
    else
      let sz := Z.to_nat (Z.land x 7) in
      let accept := acceptRanges (Z.shiftr x 4) in
      if (n <? sz)%nat then (RuneError, 1%nat)
      else
        let s1 := at_ s 1 in
        if (s1 <? fst accept) || (snd accept <? s1) then (RuneError, 1%nat)
        else if (sz <=? 2)%nat then
          (Z.lor (Z.shiftl (Z.land s0 mask2) 6) (Z.land s1 maskx), 2%nat)
        else
          let s2 := at_ s 2 in
          if (s2 <? locb) || (hicb <? s2) then (RuneError, 1%nat)
          else if (sz <=? 3)%nat then
            (Z.lor (Z.lor (Z.shiftl (Z.land s0 mask3) 12)
                          (Z.shiftl (Z.land s1 maskx) 6))
                   (Z.land s2 maskx), 3%nat)
          else
            let s3 := at_ s 3 in
            if (s3 <? locb) || (hicb <? s3) then (RuneError, 1%nat)
            else
              (Z.lor (Z.lor (Z.lor (Z.shiftl (Z.land s0 mask4) 18)
                                   (Z.shiftl (Z.land s1 maskx) 12))
                            (Z.shiftl (Z.land s2 maskx) 6))
                     (Z.land s3 maskx), 4%nat).

(** The loop of [DecodeLastRuneInString] that walks [start] down to [lim]
    looking for the first byte of a rune; [n] bounds the steps left. *)
Fixpoint DecodeLastRune_loop (n : nat) (s : list ascii) (start lim : Z) : Z :=
  match n with
  | O => start
  | S n' =>
      if start <? lim then start
      else if RuneStart (at_ s (Z.to_nat start)) then start
      else DecodeLastRune_loop n' s (start - 1) lim
  end.

(** [func DecodeLastRuneInString(s string) (rune, int)] *)
Definition DecodeLastRuneInString (s : list ascii) : Z * nat :=
  let end_ := Z.of_nat (List.length s) in
  if end_ =? 0 then (RuneError, 0%nat)
  else
    let start := end_ - 1 in
    let r := at_ s (Z.to_nat start) in
    if r <? RuneSelf then (r, 1%nat)
    else
      let lim := end_ - UTFMax in
      let lim := if lim <? 0 then 0 else lim in
      let start := start - 1 in
      let start :=
        DecodeLastRune_loop (Z.to_nat (start - lim + 1)) s start lim in
      let start := if start <? 0 then 0 else start in
      let '(r, size) :=
        DecodeRuneInString
          (firstn (Z.to_nat (end_ - start)) (skipn (Z.to_nat start) s)) in
      if negb (start + Z.of_nat size =? end_) then (RuneError, 1%nat)
      else (r, size).
End utf8.

Module unicode.
Definition MaxLatin1 : Z := 0xFF.

(** The 16-bit ranges of the table [White_Space] (all of stride 1). *)
Definition White_Space : list (Z * Z) :=
  [ (0x0009, 0x000d); (0x0020, 0x0020); (0x0085, 0x0085); (0x00a0, 0x00a0);
    (0x1680, 0x1680); (0x2000, 0x200a); (0x2028, 0x2029); (0x202f, 0x202f);
    (0x205f, 0x205f); (0x3000, 0x3000) ].

(** The first four ranges are the Latin-1 ones. *)
Definition LatinOffset : nat := 4.

Definition isExcludingLatin (rangeTab : list (Z * Z)) (r : Z) : bool :=
  existsb (fun range => (fst range <=? r) && (r <=? snd range))
          (skipn LatinOffset rangeTab).

(** [func IsSpace(r rune) bool] *)
Definition IsSpace (r : Z) : bool :=
  if r mod 2 ^ 32 <=? MaxLatin1 then
    (r =? 0x09) || (r =? 0x0A) || (r =? 0x0B) || (r =? 0x0C) || (r =? 0x0D)
    || (r =? 0x20) || (r =? 0x85) || (r =? 0xA0)
  else isExcludingLatin White_Space r.
End unicode.

Module strings.
(** The table [asciiSpace[256]]. *)
Definition asciiSpace (c : Z) : Z :=
  if (c =? 0x09) || (c =? 0x0A) || (c =? 0x0B) || (c =? 0x0C) || (c =? 0x0D)
     || (c =? 0x20)
  then 1 else 0.

(** [indexFunc]: [for i, r := range s], where [s] is what is left of the
    string from byte [i] on; [n] bounds the runes left. *)
Fixpoint indexFunc_loop (n : nat) (s : list ascii) (i : Z)
    (f : Z -> bool) (truth : bool) : Z :=
  match n with
  | O => -1
  | S n' =>
      match s with
      | [] => -1
      | _ :: _ =>
          let '(r, size) := utf8.DecodeRuneInString s in
          if Bool.eqb (f r) truth then i
          else indexFunc_loop n' (skipn size s) (i + Z.of_nat size) f truth
      end
  end.

Definition indexFunc (s : list ascii) (f : Z -> bool) (truth : bool) : Z :=
  indexFunc_loop (List.length s) s 0 f truth.

(** [lastIndexFunc]: [for i := len(s); i > 0; ]; [n] bounds the runes left. *)
Fixpoint lastIndexFunc_loop (n : nat) (s : list ascii) (i : Z)
    (f : Z -> bool) (truth : bool) : Z :=
  match n with
  | O => -1
  | S n' =>
      if 0 <? i then
        let '(r, size) := utf8.DecodeLastRuneInString (firstn (Z.to_nat i) s) in
        let i := i - Z.of_nat size in
        if Bool.eqb (f r) truth then i
        else lastIndexFunc_loop n' s i f truth
      else -1
  end.

Definition lastIndexFunc (s : list ascii) (f : Z -> bool) (truth : bool) : Z :=
  lastIndexFunc_loop (List.length s) s (Z.of_nat (List.length s)) f truth.

Definition TrimLeftFunc (s : list ascii) (f : Z -> bool) : list ascii :=
  let i := indexFunc s f false in
  if i =? -1 then [] else skipn (Z.to_nat i) s.

Definition TrimRightFunc (s : list ascii) (f : Z -> bool) : list ascii :=
  let i := lastIndexFunc s f false in
  let i :=
    if (0 <=? i) && (utf8.RuneSelf <=? at_ s (Z.to_nat i)) then
      let '(_, wid) := utf8.DecodeRuneInString (skipn (Z.to_nat i) s) in
      i + Z.of_nat wid
    else i + 1 in
  firstn (Z.to_nat i) s.

Definition TrimFunc (s : list ascii) (f : Z -> bool) : list ascii :=
  TrimRightFunc (TrimLeftFunc s f) f.

(** The second loop of [TrimSpace]: [stop] runs down from [len(s)];
    [rs] is [s[start:stop]] read backwards. *)
Fixpoint TrimSpace_stop (rs : list ascii) : list ascii :=
  match rs with
  | [] => []
  | c :: rs' =>
      if utf8.RuneSelf <=? byte c then
        TrimRightFunc (rev rs) unicode.IsSpace
      else if asciiSpace (byte c) =? 0 then rev rs
      else TrimSpace_stop rs'
  end.

(** The first loop of [TrimSpace]: [start] runs up from 0; [s] is
    [s[start:]]. *)
Fixpoint TrimSpace_start (s : list ascii) : list ascii :=
  match s with
  | [] => TrimSpace_stop (rev s)
  | c :: s' =>
      if utf8.RuneSelf <=? byte c then TrimFunc s unicode.IsSpace
      else if asciiSpace (byte c) =? 0 then TrimSpace_stop (rev s)
      else TrimSpace_start s'
  end.

(** [func TrimSpace(s string) string] *)
Definition TrimSpace (s : string) : string :=
  string_of_list_ascii (TrimSpace_start (list_ascii_of_string s)).
End strings.

(* ================================================================== *)
(** * Events and the collaborators *)

Section Events.
Variables File Payload : Type.

  (** One constructor per call that leaves the file. *)
Inductive event : Type :=
  | VersionPrinter
  | Open (name : string)
  | ParseInputFile (f : File) (items : string) (itemStart itemEnd : Z)
  | Close (f : File)
  | Stat (name : string)
  | ReadFile (name : string)
  | SetOptions (o : request.Options)
  | Extract (url : string) (o : extractors.Options)
  | Encode (e : json.Encoder) (data : list (extractors.Data Payload))
  | Download (d : downloader.Downloader) (item : extractors.Data Payload)
  | Fprintf_Downloading_error (videoURL : string)
  | Printf_error (err : error).
End Events.

Arguments VersionPrinter {File Payload}.
Arguments Open {File Payload} name.
Arguments ParseInputFile {File Payload} f items itemStart itemEnd.
Arguments Close {File Payload} f.
Arguments Stat {File Payload} name.
Arguments ReadFile {File Payload} name.
Arguments SetOptions {File Payload} o.
Arguments Extract {File Payload} url o.
Arguments Encode {File Payload} e data.
Arguments Download {File Payload} d item.
Arguments Fprintf_Downloading_error {File Payload} videoURL.
Arguments Printf_error {File Payload} err.

(** The world outside the file.  [Env] is its state (file system, network,
    terminal, the [request] package's globals), [File] is [*os.File]. *)
Class World (Env File Payload : Type) : Type := {
  cli_VersionPrinter : cli.Context -> Env -> Env;
  os_Open : string -> Env -> result File * Env;
  os_File_Close : File -> Env -> Env;
  utils_ParseInputFile : File -> string -> Z -> Z -> Env -> list string * Env;
  os_Stat : string -> Env -> option error * Env;
  os_ReadFile : string -> Env -> result string * Env;
  request_SetOptions : request.Options -> Env -> Env;
  extractors_Extract :
    string -> extractors.Options -> Env ->
    result (list (extractors.Data Payload)) * Env;
  json_Encode :
    json.Encoder -> list (extractors.Data Payload) -> Env ->
    option error * Env;
  downloader_Download :
    downloader.Downloader -> extractors.Data Payload -> Env ->
    option error * Env;
  fmt_Fprintf_Downloading_error : string -> Env -> Env;
  fmt_Printf_error : error -> Env -> Env
}.

(* ================================================================== *)
(** * The monad of the application: state passing plus an event log *)

Section Monad.
Context {Env Ev : Type}.

  (** A computation takes the environment and returns its value, the new
      environment and the events it produced, oldest first. *)
Definition M (A : Type) : Type := Env -> A * Env * list Ev.

Definition ret {A : Type} (a : A) : M A := fun env => (a, env, []).

Definition bind {A B : Type} (m : M A) (k : A -> M B) : M B :=
    fun env =>
      let '(a, env1, l1) := m env in
      let '(b, env2, l2) := k a env1 in
      (b, env2, l1 ++ l2).

  (** A call that returns a value. *)
Definition call {A : Type} (ev : Ev) (f : Env -> A * Env) : M A :=
    fun env => let '(a, env1) := f env in (a, env1, [ev]).

  (** A call that returns nothing the caller looks at. *)
Definition exec (ev : Ev) (f : Env -> Env) : M unit :=
    fun env => (tt, f env, [ev]).

  (** [defer d; body]: [d] runs when [body] has produced the return value. *)
Definition defer {A : Type} (d : M unit) (body : M A) : M A :=
    bind body (fun r => bind d (fun _ => ret r)).
End Monad.

Arguments M : clear implicits.

Declare Scope go_scope.
Delimit Scope go_scope with go.
Notation "x <- m ;; k" := (bind m (fun x => k))
  (at level 61, m at next level, right associativity) : go_scope.
Notation "m ;; k" := (bind m (fun _ => k))
  (at level 61, right associativity) : go_scope.
Local Open Scope go_scope.

(** What a run returns, where it leaves the world, what it did. *)
Definition value {A Env Ev : Type} (r : A * Env * list Ev) : A := fst (fst r).
Definition world {A Env Ev : Type} (r : A * Env * list Ev) : Env := snd (fst r).
Definition trace {A Env Ev : Type} (r : A * Env * list Ev) : list Ev := snd r.

(* ================================================================== *)
(** * app.go *)

Section App.
Context {Env File Payload : Type} `{W : World Env File Payload}.

Abbreviation Data := (extractors.Data Payload).
Abbreviation Event := (event File Payload).
Abbreviation Go := (M Env Event).

  (** The loop of [download] over the extracted items (lines 318-328).
      [errs] is the slice [errors]. *)
Fixpoint download_loop (defaultDownloader : downloader.Downloader)
      (data : list Data) (errs : list error) : Go (list error) :=
    match data with
    | [] => ret errs
    | item :: data' =>
        match extractors.Err item with
        | Some itemErr =>
            download_loop defaultDownloader data' (errs ++ [itemErr])
        | None =>
            err <- call (Download defaultDownloader item)
                        (downloader_Download defaultDownloader item) ;;
            match err with
            | Some err => download_loop defaultDownloader data' (errs ++ [err])
            | None => download_loop defaultDownloader data' errs
            end
        end
    end.

Definition extractOptions (c : cli.Context) : extractors.Options :=
    {| extractors.Playlist := cli.Bool c "playlist";
       extractors.Items := cli.String c "items";
       extractors.ItemStart := int (cli.Uint c "start");
       extractors.ItemEnd := int (cli.Uint c "end");
       extractors.ThreadNumber := int (cli.Uint c "thread");
       extractors.EpisodeTitleOnly := cli.Bool c "episode-title-only";
       extractors.Cookie := cli.String c "cookie";
       extractors.YoukuCcode := cli.String c "youku-ccode";
       extractors.YoukuCkey := cli.String c "youku-ckey";
       extractors.YoukuPassword := cli.String c "youku-password" |}.

Definition downloaderOptions (c : cli.Context) : downloader.Options :=
    {| downloader.Silent := cli.Bool c "silent";
       downloader.InfoOnly := cli.Bool c "info";
       downloader.Stream := cli.String c "stream-format";
       downloader.Refer := cli.String c "refer";
       downloader.OutputPath := cli.String c "output-path";
       downloader.OutputName := cli.String c "output-name";
       downloader.FileNameLength := int (cli.Uint c "file-name-length");
       downloader.Caption := cli.Bool c "caption";
       downloader.MultiThread := cli.Bool c "multi-thread";
       downloader.ThreadNumber := int (cli.Uint c "thread");
       downloader.RetryTimes := int (cli.Uint c "retry");
       downloader.ChunkSizeMB := int (cli.Uint c "chunk-size");
       downloader.UseAria2RPC := cli.Bool c "aria2";
       downloader.Aria2Token := cli.String c "aria2-token";
       downloader.Aria2Method := cli.String c "aria2-method";
       downloader.Aria2Addr := cli.String c "aria2-addr" |}.

  (** The encoder of the json branch (lines 289-291). *)
Definition jsonEncoder : json.Encoder :=
    let e := json.NewEncoder json.Stdout in
    let e := json.SetIndent e EmptyString TAB in
    json.SetEscapeHTML e false.

  (** [func download(c *cli.Context, videoURL string) error] *)
Definition download (c : cli.Context) (videoURL : string)
      : Go (option error) :=
    r <- call (Extract videoURL (extractOptions c))
              (extractors_Extract videoURL (extractOptions c)) ;;
    match r with
    | Failed err => ret (Some err)
    | Ok data =>
        if cli.Bool c "json" then
          let e := jsonEncoder in
          err <- call (Encode e data) (json_Encode e data) ;;
          match err with
          | Some err => ret (Some err)
          | None => ret None
          end
        else
          let defaultDownloader := downloader.New (downloaderOptions c) in
          errs <- download_loop defaultDownloader data [] ;;
          if negb (List.length errs =? 0)%nat then ret (nth_error errs 0)
          else ret None
    end.
(** The two lines a failing target prints (lines 248-253). *)
Definition report (videoURL : string) (err : error) : Go unit :=
  exec (Fprintf_Downloading_error videoURL)
       (fmt_Fprintf_Downloading_error videoURL) ;;
  exec (Printf_error err) (fmt_Printf_error err).

(** The loop of [Action] over the work list (lines 246-256). *)
Fixpoint Action_loop (c : cli.Context) (args : list string) (isErr : bool)
    : Go bool :=
  match args with
  | [] => ret isErr
  | videoURL :: args' =>
      err <- download c videoURL ;;
      match err with
      | Some err =>
          report videoURL err ;;
          Action_loop c args' true
      | None => Action_loop c args' isErr
      end
  end.

(** Lines 245-260 of [Action]: the batch and its verdict. *)
Definition Action_batch (c : cli.Context) (args : list string)
    : Go (option error) :=
  isErr <- Action_loop c args false ;;
  if isErr then ret (Some (cli.Exit EmptyString 1)) else ret None.

(** Lines 223-234 of [Action]: the value of the local [cookie], or the
    error [Action] returns from inside the block. *)
Definition Action_cookie (c : cli.Context) : Go (result string) :=
  let cookie := cli.String c "cookie" in
  if negb (cookie =? EmptyString)%string then
    fileErr <- call (Stat cookie) (os_Stat cookie) ;;
    match fileErr with
    | None =>
        r <- call (ReadFile cookie) (os_ReadFile cookie) ;;
        match r with
        | Failed err => ret (Failed err)
        | Ok data => ret (Ok (strings.TrimSpace data))
        end
    | Some _ => ret (Ok cookie)
    end
  else ret (Ok cookie).

Definition requestOptions (c : cli.Context) (cookie : string)
    : request.Options :=
  {| request.RetryTimes := int (cli.Uint c "retry");
     request.Cookie := cookie;
     request.UserAgent := cli.String c "user-agent";
     request.Refer := cli.String c "refer";
     request.Debug := cli.Bool c "debug";
     request.Silent := cli.Bool c "silent" |}.

(** Lines 219-260 of [Action]: what is done with the work list [args]. *)
Definition Action_run (c : cli.Context) (args : list string)
    : Go (option error) :=
  if (List.length args <? 1)%nat then
    ret (Some (errors.New "too few arguments"))
  else
    r <- Action_cookie c ;;
    match r with
    | Failed err => ret (Some err)
    | Ok cookie =>
        exec (SetOptions (requestOptions c cookie))
             (request_SetOptions (requestOptions c cookie)) ;;
        Action_batch c args
    end.

(** Lines 204-206 of [Action]. *)
Definition Action_debug (c : cli.Context) : Go unit :=
  if cli.Bool c "debug" then exec VersionPrinter (cli_VersionPrinter c)
  else ret tt.

(** [Action: func(c *cli.Context) error] *)
Definition Action (c : cli.Context) : Go (option error) :=
  let args := cli.Args c in
  Action_debug c ;;
  let file := cli.String c "file" in
  if negb (file =? EmptyString)%string then
    r <- call (Open file) (os_Open file) ;;
    match r with
    | Failed err => ret (Some err)
    | Ok f =>
        defer (exec (Close f) (os_File_Close f))
          (let items := cli.String c "items" in
           let itemStart := int (cli.Uint c "start") in
           let itemEnd := int (cli.Uint c "end") in
           fileItems <- call (ParseInputFile f items itemStart itemEnd)
                             (utils_ParseInputFile f items itemStart itemEnd) ;;
           let args := args ++ fileItems in
           Action_run c args)
    end
  else Action_run c args.

End App.

(** The exit status of the process for what [Action] returns: nil is 0 and
    an [ExitCoder] gives its code; any other error goes back to the caller
    of [Run], which reports it and exits with 1. *)
Definition exitStatus (r : option error) : Z :=
  match r with
  | None => 0
  | Some (exitError _ code) => code
  | Some (errorString _) => 1
  end.

(* ================================================================== *)
(** * What a trace shows *)

Section Observations.
Context {File Payload : Type}.

Abbreviation Event := (event File Payload).
Abbreviation Data := (extractors.Data Payload).

(** The targets handed to the extraction collaborator, in call order. *)
Definition extract_urls (l : list Event) : list string :=
  flat_map (fun ev => match ev with Extract url _ => [url] | _ => [] end) l.

(** The options the extraction collaborator was called with. *)
Definition extract_options (l : list Event) : list extractors.Options :=
  flat_map (fun ev => match ev with Extract _ o => [o] | _ => [] end) l.

(** The options [request.SetOptions] was called with. *)
Definition request_options (l : list Event) : list request.Options :=
  flat_map (fun ev => match ev with SetOptions o => [o] | _ => [] end) l.

(** The items handed to the download collaborator, in call order. *)
Definition downloaded (l : list Event) : list Data :=
  flat_map (fun ev => match ev with Download _ item => [item] | _ => [] end) l.

(** Work on a target: extraction, serialization or download. *)
Definition processing (ev : Event) : bool :=
  match ev with
  | Extract _ _ | Encode _ _ | Download _ _ => true
  | _ => false
  end.

(** The lines printed for failing targets. *)
Definition diagnostic (ev : Event) : bool :=
  match ev with
  | Fprintf_Downloading_error _ | Printf_error _ => true
  | _ => false
  end.

(** Opening, reading and closing the input file, and the version banner:
    what [Action] does around the work on the targets. *)
Definition bookkeeping (ev : Event) : bool :=
  match ev with
  | VersionPrinter | Open _ | ParseInputFile _ _ _ _ | Close _ => true
  | _ => false
  end.

(** An item that carries no error of its own. *)
Definition valid (item : Data) : bool :=
  match extractors.Err item with
  | None => true
  | Some _ => false
  end.

(** The diagnostic owed to a target with outcome [out]. *)
Definition diagnosis (target_out : string * option error) : list Event :=
  match snd target_out with
  | Some err => [Fprintf_Downloading_error (fst target_out); Printf_error err]
  | None => []
  end.
End Observations.

Definition failed (out : option error) : bool :=
  match out with
  | Some _ => true
  | None => false
  end.

(** The first error of a list of outcomes, if there is one. *)
Fixpoint first_error (outs : list (option error)) : option error :=
  match outs with
  | [] => None
  | Some err :: _ => Some err
  | None :: outs' => first_error outs'
  end.

(** The errors among a list of outcomes, in order. *)
Definition recorded (outs : list (option error)) : list error :=
  flat_map (fun out => match out with Some err => [err] | None => [] end) outs.

(** The whitespace bytes of ASCII. *)
Definition space (c : ascii) : bool := strings.asciiSpace (byte c) =? 1.

(** The bytes of ASCII: those below [utf8.RuneSelf]. *)
Definition plain (ch : ascii) : Prop := byte ch < utf8.RuneSelf.

(** A string without its leading white space. *)
Fixpoint strip_left (s : list ascii) : list ascii :=
  match s with
  | [] => []
  | c :: s' => if space c then strip_left s' else s
  end.

(** A string without its leading and trailing white space. *)
Definition strip (s : list ascii) : list ascii :=
  rev (strip_left (rev (strip_left s))).

(** What [DecodeRuneInString] looks at: the length and the first four
    bytes. *)
Definition decode_core (n : nat) (b0 b1 b2 b3 : Z) : Z * nat :=
  if (n <? 1)%nat then (utf8.RuneError, 0%nat)
  else
    let x := utf8.first b0 in
    if utf8.as_ <=? x then
      let mask := Z.shiftr (wrap32 (Z.shiftl x 31)) 31 in
      (Z.lor (Z.land b0 (Z.lnot mask)) (Z.land utf8.RuneError mask), 1%nat)
    else
      let sz := Z.to_nat (Z.land x 7) in
      let accept := utf8.acceptRanges (Z.shiftr x 4) in
      if (n <? sz)%nat then (utf8.RuneError, 1%nat)
      else
        if (b1 <? fst accept) || (snd accept <? b1) then (utf8.RuneError, 1%nat)
        else if (sz <=? 2)%nat then
          (Z.lor (Z.shiftl (Z.land b0 utf8.mask2) 6) (Z.land b1 utf8.maskx), 2%nat)
        else
          if (b2 <? utf8.locb) || (utf8.hicb <? b2) then (utf8.RuneError, 1%nat)
          else if (sz <=? 3)%nat then
            (Z.lor (Z.lor (Z.shiftl (Z.land b0 utf8.mask3) 12)
                          (Z.shiftl (Z.land b1 utf8.maskx) 6))
                   (Z.land b2 utf8.maskx), 3%nat)
          else
            if (b3 <? utf8.locb) || (utf8.hicb <? b3) then (utf8.RuneError, 1%nat)
            else
              (Z.lor (Z.lor (Z.lor (Z.shiftl (Z.land b0 utf8.mask4) 18)
                                   (Z.shiftl (Z.land b1 utf8.maskx) 12))
                            (Z.shiftl (Z.land b2 utf8.maskx) 6))
                     (Z.land b3 utf8.maskx), 4%nat).

(** The first [k] bytes of [s] are runes that satisfy [f], read from the
    start of [s]. *)
Inductive leading (f : Z -> bool) : list ascii -> nat -> Prop :=
| leading_O (s : list ascii) : leading f s 0
| leading_S (s : list ascii) (r : Z) (size k : nat) :
    s <> [] ->
    utf8.DecodeRuneInString s = (r, size) ->
    f r = true ->
    leading f (skipn size s) k ->
    leading f s (size + k).

(** The last [k] bytes of [s] are runes that satisfy [f], read from the
    end of [s]. *)
Inductive trailing (f : Z -> bool) : list ascii -> nat -> Prop :=
| trailing_O (s : list ascii) : trailing f s 0
| trailing_S (s : list ascii) (r : Z) (size k : nat) :
    s <> [] ->
    utf8.DecodeLastRuneInString s = (r, size) ->
    f r = true ->
    trailing f (firstn (List.length s - size) s) k ->
    trailing f s (size + k).

(** [t] is [s] without its leading and its trailing runes that satisfy
    [f]: [a] bytes of such runes are taken from the start of [s], then [b]
    bytes of such runes from the end of what is left, and [t], if it is not
    empty, starts and ends with a rune that does not satisfy [f]. *)
Definition trimmed (f : Z -> bool) (s t : list ascii) : Prop :=
  exists a b,
    (a + b <= List.length s)%nat /\
    leading f s a /\
    trailing f (skipn a s) b /\
    t = firstn (List.length s - a - b) (skipn a s) /\
    (t = [] \/
     (f (fst (utf8.DecodeRuneInString t)) = false /\
      f (fst (utf8.DecodeLastRuneInString t)) = false)).

(* ================================================================== *)
(** * The specification's reading of the loops, and the statements made
      with it *)

Section Reading.
Context {Env File Payload : Type} `{W : World Env File Payload}.

Abbreviation Go := (M Env (event File Payload)).

(** Run [f] on every element, in order, whatever the results. *)
Fixpoint mapM {A B : Type} (f : A -> Go B) (l : list A) : Go (list B) :=
  match l with
  | [] => ret []
  | a :: l' =>
      b <- f a ;;
      bs <- mapM f l' ;;
      ret (b :: bs)
  end.

(** One item of a target: its own error if it carries one, and otherwise
    what the download collaborator answers. *)
Definition attempt (d : downloader.Downloader)
    (item : extractors.Data Payload) : Go (option error) :=
  match extractors.Err item with
  | Some itemErr => ret (Some itemErr)
  | None => call (Download d item) (downloader_Download d item)
  end.

(** One target of the batch: the pipeline, then the diagnostic if it
    failed. *)
Definition process (c : cli.Context) (videoURL : string)
    : Go (option error) :=
  out <- download c videoURL ;;
  match out with
  | Some err => report videoURL err
  | None => ret tt
  end ;;
  ret out.

(** Lines 202-217 of [Action] seen alone: the work list, or the error of
    [os.Open].  (The deferred [Close] is left out.) *)
Definition Action_worklist (c : cli.Context) : Go (result (list string)) :=
  let args := cli.Args c in
  Action_debug c ;;
  let file := cli.String c "file" in
  if negb (file =? EmptyString)%string then
    r <- call (Open file) (os_Open file) ;;
    match r with
    | Failed err => ret (Failed err)
    | Ok f =>
        let items := cli.String c "items" in
        let itemStart := int (cli.Uint c "start") in
        let itemEnd := int (cli.Uint c "end") in
        fileItems <- call (ParseInputFile f items itemStart itemEnd)
                          (utils_ParseInputFile f items itemStart itemEnd) ;;
        ret (Ok (args ++ fileItems))
    end
  else ret (Ok args).

(** The items of a target, for the run of [download] on [videoURL] from
    [env], when extraction answered [data] and left the world in [env1]:
    every item is attempted once, in order (there is one outcome per item,
    the valid items reach the download collaborator, and nothing else is
    done), and the result is the first error, in item order. *)
Definition attempts_every_item (c : cli.Context) (videoURL : string)
    (env : Env) (data : list (extractors.Data Payload)) (env1 : Env) : Prop :=
  let d := downloader.New (downloaderOptions c) in
  let r := download c videoURL env in
  let outs := mapM (attempt d) data env1 in
  List.length (value outs) = List.length data /\
  trace r = Extract videoURL (extractOptions c)
            :: map (Download d) (filter valid data) /\
  trace r = Extract videoURL (extractOptions c) :: trace outs /\
  world r = world outs /\
  value r = first_error (value outs).

(** A target without items, for the run of [download] on [videoURL] from
    [env]: success, and no download. *)
Definition empty_extraction_succeeds (c : cli.Context) (videoURL : string)
    (env : Env) : Prop :=
  let r := download c videoURL env in
  value r = None /\ downloaded (trace r) = [].
End Reading.

(* ================================================================== *)
(** * A small world to run the application in *)

Module Demo.
(** The environment: is standard output still open? *)
Definition Env : Type := bool.
(** An open file: its lines. *)
Definition File : Type := list string.
Definition Payload : Type := string.

Definition LF : string := String "010"%char EmptyString.

(** The contents of the cookie file: two spaces, the cookie, a newline. *)
Definition cookie_file : string := ("  token=xyz" ++ LF)%string.

Definition item (p : string) : extractors.Data Payload :=
  {| extractors.payload := p; extractors.Err := None |}.

Definition broken (p msg : string) : extractors.Data Payload :=
  {| extractors.payload := p; extractors.Err := Some (errorString msg) |}.

#[export] Instance world : World Env File Payload := {|
  cli_VersionPrinter := fun _ env => env;
  os_Open := fun name env =>
    if (name =? "urls.txt")%string then (Ok ["u2"; "u1"; "u2"], env)
    else if (name =? "empty.txt")%string then (Ok [], env)
    else (Failed (errorString "open: no such file or directory"), env);
  os_File_Close := fun _ env => env;
  utils_ParseInputFile := fun f _ _ _ env => (f, env);
  os_Stat := fun name env =>
    if (name =? "cookie.txt")%string || (name =? "locked.txt")%string
    then (None, env)
    else (Some (errorString "stat: no such file or directory"), env);
  os_ReadFile := fun name env =>
    if (name =? "cookie.txt")%string then (Ok cookie_file, env)
    else (Failed (errorString "read: permission denied"), env);
  request_SetOptions := fun _ env => env;
  extractors_Extract := fun url _ env =>
    if (url =? "u1")%string
    then (Ok [item "a"; broken "b" "no stream"; item "c"; item "d"], env)
    else if (url =? "u2")%string then (Ok [item "e"], env)
    else if (url =? "u3")%string then (Ok [], env)
    else if (url =? "u4")%string
    then (Ok [broken "f" "no stream"; broken "g" "gone"], env)
    else (Failed (errorString "unsupported URL"), env);
  json_Encode := fun _ _ (env : Env) =>
    if env then (None, env)
    else (Some (errorString "write /dev/stdout: file already closed"), env);
  downloader_Download := fun _ it env =>
    if (extractors.payload it =? "c")%string
    then (Some (errorString "download failed"), env)
    else (None, env);
  fmt_Fprintf_Downloading_error := fun _ env => env;
  fmt_Printf_error := fun _ env => env
|}.

(** A command line: the positional arguments, [--json], [--cookie] and
    [--file]; the numeric flags have their default values. *)
Definition context (args : list string) (json : bool) (cookie file : string)
    : cli.Context :=
  {| cli.Args := args;
     cli.Bool := fun name => if (name =? "json")%string then json else false;
     cli.String := fun name =>
       if (name =? "cookie")%string then cookie
       else if (name =? "file")%string then file
       else if (name =? "aria2-addr")%string then "localhost:6800"
       else if (name =? "aria2-method")%string then "http"
       else if (name =? "youku-ccode")%string then "0502"
       else EmptyString;
     cli.Uint := fun name =>
       if (name =? "file-name-length")%string then 255
       else if (name =? "start")%string then 1
       else if (name =? "retry")%string then 10
       else if (name =? "chunk-size")%string then 1
       else if (name =? "thread")%string then 10
       else 0 |}.
End Demo.

(* ================================================================== *)
(** * The flags of the application: [Flags] in [New] *)

(** [cli.BoolFlag], [cli.StringFlag] and [cli.UintFlag], with the fields
    the table sets ([Value] is the zero value where the table leaves it
    out). *)
Inductive Flag : Type :=
| BoolFlag (Name : string) (Aliases : list string) (Usage : string)
| StringFlag (Name : string) (Aliases : list string) (Value : string)
    (Usage : string)
| UintFlag (Name : string) (Aliases : list string) (Value : Z)
    (Usage : string).

(** The table, in the order it is written (lines 45-200). *)
Definition Flags : list Flag :=
  [ BoolFlag "debug" ["d"] "Debug mode";
    BoolFlag "silent" ["s"] "Minimum outputs";
    BoolFlag "info" ["i"] "Information only";
    BoolFlag "json" ["j"] "Print extracted JSON data";
    StringFlag "cookie" ["c"] EmptyString "Cookie";
    BoolFlag "playlist" ["p"] "Download playlist";
    StringFlag "user-agent" ["u"] EmptyString "Use specified User-Agent";
    StringFlag "refer" ["r"] EmptyString "Use specified Referrer";
    StringFlag "stream-format" ["f"] EmptyString
      "Select specific stream to download";
    StringFlag "file" ["F"] EmptyString "URLs file path";
    StringFlag "output-path" ["o"] EmptyString "Specify the output path";
    StringFlag "output-name" ["O"] EmptyString
      "Specify the output file name";
    UintFlag "file-name-length" [] 255
      "The maximum length of a file name, 0 means unlimited";
    BoolFlag "caption" ["C"] "Download captions";
    UintFlag "start" [] 1
      "Define the starting item of a playlist or a file input";
    UintFlag "end" [] 0
      "Define the ending item of a playlist or a file input";
    StringFlag "items" [] EmptyString
      "Define wanted items from a file or playlist. Separated by commas like: 1,5,6,8-10";
    BoolFlag "multi-thread" ["m"]
      "Multiple threads to download single video";
    UintFlag "retry" [] 10
      "How many times to retry when the download failed";
    UintFlag "chunk-size" ["cs"] 1
      "HTTP chunk size for downloading (in MB)";
    UintFlag "thread" ["n"] 10
      "The number of download thread (only works for multiple-parts video)";
    BoolFlag "aria2" [] "Use Aria2 RPC to download";
    StringFlag "aria2-token" [] EmptyString "Aria2 RPC Token";
    StringFlag "aria2-addr" [] "localhost:6800" "Aria2 Address";
    StringFlag "aria2-method" [] "http" "Aria2 Method";
    StringFlag "youku-ccode" ["ccode"] "0502" "Youku ccode";
    StringFlag "youku-ckey" ["ckey"]
      "7B19C0AB12633B22E7FE81271162026020570708D6CC189E4924503C49D243A0DE6CD84A766832C2C99898FC5ED31F3709BB3CDD82C96492E721BDD381735026"
      "Youku ckey";
    StringFlag "youku-password" ["password"] EmptyString "Youku password";
    BoolFlag "episode-title-only" ["eto"]
      "File name of each bilibili episode doesn't include the playlist title"
  ].

(** The names a flag answers to: its name, then its aliases. *)
Definition Names (fl : Flag) : list string :=
  match fl with
  | BoolFlag name aliases _ => name :: aliases
  | StringFlag name aliases _ _ => name :: aliases
  | UintFlag name aliases _ _ => name :: aliases
  end.

(** Two contexts give the flag [fl], looked up by its name at its type, the
    same value. *)
Definition same_flag (c c' : cli.Context) (fl : Flag) : Prop :=
  match fl with
  | BoolFlag name _ _ => cli.Bool c name = cli.Bool c' name
  | StringFlag name _ _ _ => cli.String c name = cli.String c' name
  | UintFlag name _ _ _ => cli.Uint c name = cli.Uint c' name
  end.

(** Two command lines with the same arguments and the same values for the
    flags of the table. *)
Definition same_flags (c c' : cli.Context) : Prop :=
  cli.Args c = cli.Args c' /\ Forall (same_flag c c') Flags.

(* ================================================================== *)
(** * More of what a trace shows *)

Section MoreObservations.
Context {File Payload : Type}.

Abbreviation Event := (event File Payload).

(** The files closed, in call order. *)
Definition closed (l : list Event) : list File :=
  flat_map (fun ev => match ev with Close f => [f] | _ => [] end) l.

(** The encoders used, in call order. *)
Definition encoders (l : list Event) : list json.Encoder :=
  flat_map (fun ev => match ev with Encode e _ => [e] | _ => [] end) l.

(** The downloaders used, in call order. *)
Definition downloaders (l : list Event) : list downloader.Downloader :=
  flat_map (fun ev => match ev with Download d _ => [d] | _ => [] end) l.

(** Looking at the file system for the cookie. *)
Definition looking (ev : Event) : bool :=
  match ev with
  | Stat _ | ReadFile _ => true
  | _ => false
  end.

(** What the batch does: work on a target, or the lines of a failing
    target. *)
Definition batching (ev : Event) : bool := processing ev || diagnostic ev.
End MoreObservations.

(** The verdict of two batches run one after the other. *)
Definition both (v1 v2 : option error) : option error :=
  match v1, v2 with
  | None, None => None
  | _, _ => Some (cli.Exit EmptyString 1)
  end.

(** What [Action] does before it has its work list: the version banner,
    and opening and reading the input file. *)
Definition opening {File Payload : Type} (ev : event File Payload) : bool :=
  match ev with
  | VersionPrinter | Open _ | ParseInputFile _ _ _ _ => true
  | _ => false
  end.

(** A call of a collaborator that takes options gets the options built
    from the flags of [c], and the encoder is called in json mode only, the
    downloader out of json mode only. *)
Definition configured {File Payload : Type} (c : cli.Context)
    (ev : event File Payload) : Prop :=
  match ev with
  | Extract _ o => o = extractOptions c
  | Encode e _ => e = jsonEncoder /\ cli.Bool c "json" = true
  | Download d _ =>
      d = downloader.New (downloaderOptions c) /\ cli.Bool c "json" = false
  | _ => True
  end.

(** The command line [c] with values under three names that are not flags
    of the application. *)
Definition with_unknown_flags (c : cli.Context) : cli.Context :=
  {| cli.Args := cli.Args c;
     cli.Bool := fun name =>
       if (name =? "verbose")%string then true else cli.Bool c name;
     cli.String := fun name =>
       if (name =? "proxy")%string then "localhost:8080"
       else cli.String c name;
     cli.Uint := fun name =>
       if (name =? "timeout")%string then 30 else cli.Uint c name |}.

(** The command line [c] with [--retry n]. *)
Definition with_retry (c : cli.Context) (n : Z) : cli.Context :=
  {| cli.Args := cli.Args c;
     cli.Bool := cli.Bool c;
     cli.String := cli.String c;
     cli.Uint := fun name =>
       if (name =? "retry")%string then n else cli.Uint c name |}.

(* ================================================================== *)
(** * Running computations *)

Section Runs.
Context {Env Ev : Type}.

Lemma run_bind {A B : Type} (m : M Env Ev A) (k : A -> M Env Ev B)
    (env env1 : Env) (a : A) (l1 : list Ev) :
  m env = (a, env1, l1) ->
  bind m k env =
  (value (k a env1), world (k a env1), l1 ++ trace (k a env1)).
Proof.
  intros H. unfold bind, value, world, trace. rewrite H.
  destruct (k a env1) as [[b env2] l2]. reflexivity.
Qed.

Lemma run_eta {A : Type} (r : A * Env * list Ev) :
  r = (value r, world r, trace r).
Proof. destruct r as [[a env] l]. reflexivity. Qed.

Lemma value_bind {A B : Type} (m : M Env Ev A) (k : A -> M Env Ev B) env :
  value (bind m k env) = value (k (value (m env)) (world (m env))).
Proof.
  rewrite (run_bind m k env _ _ _ (run_eta (m env))). reflexivity.
Qed.

Lemma world_bind {A B : Type} (m : M Env Ev A) (k : A -> M Env Ev B) env :
  world (bind m k env) = world (k (value (m env)) (world (m env))).
Proof.
  rewrite (run_bind m k env _ _ _ (run_eta (m env))). reflexivity.
Qed.

Lemma trace_bind {A B : Type} (m : M Env Ev A) (k : A -> M Env Ev B) env :
  trace (bind m k env) =
  trace (m env) ++ trace (k (value (m env)) (world (m env))).
Proof.
  rewrite (run_bind m k env _ _ _ (run_eta (m env))). reflexivity.
Qed.

Lemma run_call {A : Type} (ev : Ev) (f : Env -> A * Env) env a env1 :
  f env = (a, env1) -> call ev f env = (a, env1, [ev]).
Proof. intros H. unfold call. rewrite H. reflexivity. Qed.

Lemma trace_call {A : Type} (ev : Ev) (f : Env -> A * Env) env :
  trace (call ev f env) = [ev].
Proof. unfold call. destruct (f env). reflexivity. Qed.

Lemma value_call {A : Type} (ev : Ev) (f : Env -> A * Env) env :
  value (call ev f env) = fst (f env).
Proof. unfold call. destruct (f env). reflexivity. Qed.

Lemma world_call {A : Type} (ev : Ev) (f : Env -> A * Env) env :
  world (call ev f env) = snd (f env).
Proof. unfold call. destruct (f env). reflexivity. Qed.
End Runs.

Lemma first_error_recorded (outs : list (option error)) :
  nth_error (recorded outs) 0 = first_error outs.
Proof.
  induction outs as [|[err|] outs IH]; simpl; auto.
Qed.

Lemma recorded_empty (outs : list (option error)) :
  (List.length (recorded outs) =? 0)%nat = true -> first_error outs = None.
Proof.
  induction outs as [|[err|] outs IH]; simpl; auto. discriminate.
Qed.

(* ================================================================== *)
(** * [strings.TrimSpace] on ASCII strings *)

Section TrimSpaceASCII.

Lemma asciiSpace_space (ch : ascii) :
  (strings.asciiSpace (byte ch) =? 0) = negb (space ch).
Proof.
  unfold space, strings.asciiSpace.
  destruct (_ || _); reflexivity.
Qed.

Lemma TrimSpace_stop_plain (rs : list ascii) :
  Forall plain rs -> strings.TrimSpace_stop rs = rev (strip_left rs).
Proof.
  induction 1 as [|ch rs Hch _ IH]; [reflexivity|].
  cbn [strings.TrimSpace_stop strip_left].
  replace (utf8.RuneSelf <=? byte ch) with false
    by (symmetry; apply Z.leb_gt; exact Hch).
  rewrite asciiSpace_space. destruct (space ch); [exact IH | reflexivity].
Qed.

(** On a string of ASCII bytes [TrimSpace] strips the leading and the
    trailing white space. *)
Lemma TrimSpace_start_plain (s : list ascii) :
  Forall plain s -> strings.TrimSpace_start s = strip s.
Proof.
  induction 1 as [|ch s Hch Hs IH]; [reflexivity|].
  cbn [strings.TrimSpace_start].
  replace (utf8.RuneSelf <=? byte ch) with false
    by (symmetry; apply Z.leb_gt; exact Hch).
  rewrite asciiSpace_space. unfold strip. cbn [strip_left].
  destruct (space ch); cbn [negb].
  - exact IH.
  - apply TrimSpace_stop_plain. apply Forall_rev. now constructor.
Qed.

(** What is stripped on the left is white space, and what is left does not
    start with white space. *)
Lemma strip_left_spec (s : list ascii) :
  exists pre,
    s = pre ++ strip_left s /\
    Forall (fun ch => space ch = true) pre /\
    (forall ch t, strip_left s = ch :: t -> space ch = false).
Proof.
  induction s as [|ch s (pre & E & P & N)].
  - exists []. repeat split; [constructor | discriminate].
  - cbn [strip_left]. destruct (space ch) eqn:S.
    + exists (ch :: pre). repeat split.
      * cbn. now rewrite <- E.
      * now constructor.
      * exact N.
    + exists []. repeat split; [constructor|].
      intros ch' t [= <- _]. exact S.
Qed.

(** [strip s] is [s] without a run of white space at each end, and has
    white space at neither end. *)
Lemma strip_spec (s : list ascii) :
  exists pre post,
    s = pre ++ strip s ++ post /\
    Forall (fun ch => space ch = true) pre /\
    Forall (fun ch => space ch = true) post /\
    (forall ch t, strip s = ch :: t -> space ch = false) /\
    (forall ch t, strip s = t ++ [ch] -> space ch = false).
Proof.
  unfold strip.
  destruct (strip_left_spec s) as (pre & E & P & N).
  destruct (strip_left_spec (rev (strip_left s))) as (tsop & E' & P' & N').
  set (m := strip_left (rev (strip_left s))) in *.
  assert (T : strip_left s = rev m ++ rev tsop).
  { rewrite <- rev_app_distr, <- E'. now rewrite rev_involutive. }
  exists pre, (rev tsop). repeat split.
  - now rewrite <- T.
  - exact P.
  - apply Forall_rev. exact P'.
  - intros ch t R. apply (N ch (t ++ rev tsop)). now rewrite T, R.
  - intros ch t R. apply (N' ch (rev t)).
    rewrite <- (rev_involutive m), R, rev_app_distr. reflexivity.
Qed.
End TrimSpaceASCII.

(* ================================================================== *)
(** * [strings.TrimSpace] on every string

    [utf8.DecodeRuneInString] and [utf8.DecodeLastRuneInString] first, then
    the two index loops, whose bounds on the number of steps are shown to
    be large enough, then the trimming functions. *)

Section Decoding.

Lemma byte_range (c : ascii) : 0 <= byte c < 256.
Proof.
  unfold byte. pose proof (N_ascii_bounded c). lia.
Qed.

Lemma Decode_core (s : list ascii) :
  utf8.DecodeRuneInString s
  = decode_core (List.length s) (at_ s 0) (at_ s 1) (at_ s 2) (at_ s 3).
Proof. reflexivity. Qed.

Ltac split_ifs :=
  repeat match goal with
         | |- context [if ?b then _ else _] =>
             let E := fresh "E" in destruct b eqn:E
         end.

Ltac lead_const x :=
  let a := eval vm_compute in (utf8.as_ <=? x) in
  let z := eval vm_compute in (Z.to_nat (Z.land x 7)) in
  let r := eval vm_compute in (utf8.acceptRanges (Z.shiftr x 4)) in
  change (utf8.as_ <=? x) with a in *;
  change (Z.to_nat (Z.land x 7)) with z in *;
  change (utf8.acceptRanges (Z.shiftr x 4)) with r in *.

Ltac bools :=
  repeat match goal with
         | H : (_ <? _)%nat = false |- _ => apply Nat.ltb_ge in H
         | H : (_ <? _)%nat = true |- _ => apply Nat.ltb_lt in H
         | H : (_ <=? _)%nat = false |- _ => apply Nat.leb_gt in H
         | H : (_ <=? _)%nat = true |- _ => apply Nat.leb_le in H
         | H : (_ <? _) = false |- _ => apply Z.ltb_ge in H
         | H : (_ <? _) = true |- _ => apply Z.ltb_lt in H
         | H : (_ <=? _) = false |- _ => apply Z.leb_gt in H
         | H : (_ <=? _) = true |- _ => apply Z.leb_le in H
         | H : (_ =? _) = false |- _ => apply Z.eqb_neq in H
         | H : (_ =? _) = true |- _ => apply Z.eqb_eq in H
         | H : _ || _ = false |- _ => apply orb_false_iff in H; destruct H
         | H : _ || _ = true |- _ => apply orb_true_iff in H; destruct H
         end.

Lemma first_value (b : Z) :
  0 <= b < 256 ->
  (b < 0x80 /\ utf8.first b = utf8.as_) \/
  ((0x80 <= b < 0xC2 \/ 0xF4 < b) /\ utf8.first b = utf8.xx) \/
  (0xC2 <= b <= 0xF4 /\
   In (utf8.first b)
      [utf8.s1; utf8.s2; utf8.s3; utf8.s4; utf8.s5; utf8.s6; utf8.s7]).
Proof.
  intros R. unfold utf8.first. split_ifs; cbn [In]; try lia; auto 20.
  all: right; right; split; [lia|]; auto 20.
Qed.

Lemma core_ascii (n : nat) (b0 b1 b2 b3 : Z) :
  (1 <= n)%nat -> 0 <= b0 < 0x80 ->
  decode_core n b0 b1 b2 b3 = (b0, 1%nat).
Proof.
  intros N R. unfold decode_core.
  replace (n <? 1)%nat with false by (symmetry; apply Nat.ltb_ge; lia).
  replace (utf8.first b0) with utf8.as_
    by (unfold utf8.first; replace (b0 <? 128) with true
          by (symmetry; apply Z.ltb_lt; lia); reflexivity).
  cbn. now rewrite Z.land_m1_r, Z.lor_0_r.
Qed.

Lemma core_invalid (n : nat) (b0 b1 b2 b3 : Z) :
  (1 <= n)%nat -> utf8.first b0 = utf8.xx ->
  decode_core n b0 b1 b2 b3 = (utf8.RuneError, 1%nat).
Proof.
  intros N E. unfold decode_core.
  replace (n <? 1)%nat with false by (symmetry; apply Nat.ltb_ge; lia).
  rewrite E. cbn. now rewrite Z.land_0_r.
Qed.

(** A rune of several bytes is decoded from a first byte from 0xC2 on and a
    second byte that continues it, and the bytes behind it do not matter. *)
Lemma core_multi (n : nat) (b0 b1 b2 b3 r : Z) (size : nat) :
  0 <= b0 < 256 ->
  decode_core n b0 b1 b2 b3 = (r, size) ->
  (2 <= size)%nat ->
  0xC2 <= b0 /\ (size <= n)%nat /\ (size <= 4)%nat /\ 0x80 <= b1 <= 0xBF /\
  forall (n' : nat) (b2' b3' : Z),
    (size <= n')%nat ->
    ((3 <= size)%nat -> b2' = b2) ->
    ((4 <= size)%nat -> b3' = b3) ->
    decode_core n' b0 b1 b2' b3' = (r, size).
Proof.
  intros R H S.
  destruct (first_value b0 R) as [[L E]|[[L E]|[L E]]].
  - destruct n as [|n]; [cbn in H; inversion H; subst; lia|].
    rewrite core_ascii in H by lia. inversion H; subst; lia.
  - destruct n as [|n]; [cbn in H; inversion H; subst; lia|].
    rewrite core_invalid in H by (auto; lia). inversion H; subst; lia.
  - unfold decode_core in H.
    cbn [In] in E.
    destruct E as [E|[E|[E|[E|[E|[E|[E|[]]]]]]]];
      rewrite <- E in H; cbv zeta in H;
      match type of E with
      | ?x = _ => lead_const x
      end;
      cbn [fst snd Nat.leb] in H;
      repeat match type of H with
             | (if ?b then _ else _) = _ => destruct b eqn:?
             end;
      apply pair_equal_spec in H; destruct H as [<- <-];
      unfold utf8.locb, utf8.hicb in *; bools; try lia;
      (split; [lia|]); (split; [lia|]);
      (split; [lia|]); (split; [lia|]);
      intros n' b2' b3' N' B2 B3;
      unfold decode_core; rewrite <- E; cbv zeta;
      match type of E with
      | ?x = _ => lead_const x
      end;
      cbn [fst snd Nat.leb];
      try (rewrite B2 by lia); try (rewrite B3 by lia);
      repeat match goal with
             | |- (if ?b then _ else _) = _ => destruct b eqn:?
             end; try reflexivity;
      unfold utf8.locb, utf8.hicb in *; bools; try lia.
Qed.

(** A first byte outside ASCII that does not start a rune of several bytes
    decodes to [RuneError], of width 1. *)
Lemma core_single (n : nat) (b0 b1 b2 b3 r : Z) (size : nat) :
  0 <= b0 < 256 -> (1 <= n)%nat ->
  decode_core n b0 b1 b2 b3 = (r, size) ->
  (1 <= size)%nat /\
  ((size <= 1)%nat -> 0x80 <= b0 -> r = utf8.RuneError).
Proof.
  intros R N H.
  destruct (first_value b0 R) as [[L E]|[[L E]|[L E]]].
  - rewrite core_ascii in H by lia.
    apply pair_equal_spec in H; destruct H as [<- <-]. lia.
  - rewrite core_invalid in H by (auto; lia).
    apply pair_equal_spec in H; destruct H as [<- <-]. split; [lia | reflexivity].
  - unfold decode_core in H.
    cbn [In] in E.
    destruct E as [E|[E|[E|[E|[E|[E|[E|[]]]]]]]];
      rewrite <- E in H; cbv zeta in H;
      match type of E with
      | ?x = _ => lead_const x
      end;
      cbn [fst snd Nat.leb] in H;
      repeat match type of H with
             | (if ?b then _ else _) = _ => destruct b eqn:?
             end;
      apply pair_equal_spec in H; destruct H as [<- <-];
      bools; try lia; (split; [lia|]); intros; reflexivity || lia.
Qed.

Lemma nth_firstn {A : Type} (l : list A) (j k : nat) (d : A) :
  (k < j)%nat -> nth k (firstn j l) d = nth k l d.
Proof.
  revert j k. induction l as [|a l IH]; intros j k Hk.
  - rewrite firstn_nil. reflexivity.
  - destruct j as [|j]; [lia|]. destruct k as [|k]; [reflexivity|].
    cbn. apply IH. lia.
Qed.

Lemma Decode_nil : utf8.DecodeRuneInString [] = (utf8.RuneError, 0%nat).
Proof. reflexivity. Qed.

Lemma Decode_ascii (c : ascii) (t : list ascii) :
  byte c < utf8.RuneSelf ->
  utf8.DecodeRuneInString (c :: t) = (byte c, 1%nat).
Proof.
  intros H. rewrite Decode_core. apply core_ascii; [cbn; lia|].
  pose proof (byte_range c). unfold utf8.RuneSelf in H.
  change (at_ (c :: t) 0) with (byte c). lia.
Qed.

(** A decoded rune takes at least one byte and no more than there are. *)
Lemma Decode_size (s : list ascii) :
  s <> [] ->
  (1 <= snd (utf8.DecodeRuneInString s) <= List.length s)%nat.
Proof.
  intros NE. destruct s as [|c t]; [contradiction|].
  destruct (utf8.DecodeRuneInString (c :: t)) as [r size] eqn:D.
  rewrite Decode_core in D. cbn [snd].
  change (at_ (c :: t) 0) with (byte c) in D.
  destruct (core_single (List.length (c :: t)) _ _ _ _ _ _
              (byte_range c) ltac:(cbn [List.length]; lia) D) as [S1 _].
  split; [exact S1|].
  destruct (le_lt_dec 2 size) as [S2|S2]; [|cbn; lia].
  destruct (core_multi _ _ _ _ _ _ _ (byte_range c) D S2) as (_ & S3 & _).
  exact S3.
Qed.

(** A rune of several bytes does not depend on what follows its bytes. *)
Lemma Decode_multi (s : list ascii) (r : Z) (size : nat) :
  utf8.DecodeRuneInString s = (r, size) ->
  (2 <= size)%nat ->
  (exists c t, s = c :: t /\ 0xC2 <= byte c) /\
  (size <= List.length s)%nat /\
  forall q, utf8.DecodeRuneInString (firstn size s ++ q) = (r, size).
Proof.
  intros D S2. destruct s as [|c t]; [cbn in D; inversion D; lia|].
  rewrite Decode_core in D.
  change (at_ (c :: t) 0) with (byte c) in D.
  destruct (core_multi _ _ _ _ _ _ _ (byte_range c) D S2)
    as (B0 & S3 & S4 & _ & K).
  split; [exists c, t; split; [reflexivity | exact B0]|].
  split; [exact S3|].
  intros q. rewrite Decode_core.
  assert (A : forall k, (k < size)%nat ->
                at_ (firstn size (c :: t) ++ q) k = at_ (c :: t) k).
  { intros k Hk. unfold at_. f_equal.
    rewrite app_nth1 by (rewrite length_firstn; lia).
    now apply nth_firstn. }
  rewrite (A 0%nat), (A 1%nat) by lia.
  change (at_ (c :: t) 0) with (byte c).
  apply K.
  - rewrite length_app, length_firstn. lia.
  - intros S. apply A. lia.
  - intros S. apply A. lia.
Qed.

(** A byte outside ASCII with nothing that continues it behind it decodes
    to [RuneError], of width 1. *)
Lemma Decode_alone (c : ascii) (t : list ascii) :
  utf8.RuneSelf <= byte c ->
  (forall c1 t1, t = c1 :: t1 -> byte c1 < 0x80 \/ 0xBF < byte c1) ->
  utf8.DecodeRuneInString (c :: t) = (utf8.RuneError, 1%nat).
Proof.
  intros B T.
  destruct (utf8.DecodeRuneInString (c :: t)) as [r size] eqn:D.
  pose proof D as D'. rewrite Decode_core in D'.
  change (at_ (c :: t) 0) with (byte c) in D'.
  destruct (core_single (List.length (c :: t)) _ _ _ _ _ _
              (byte_range c) ltac:(cbn [List.length]; lia) D') as [S1 E].
  destruct (le_lt_dec 2 size) as [S2|S2].
  - exfalso.
    destruct (core_multi _ _ _ _ _ _ _ (byte_range c) D' S2)
      as (_ & S3 & _ & B1 & _).
    destruct t as [|c1 t1]; [cbn in S3; lia|].
    change (at_ (c :: c1 :: t1) 1) with (byte c1) in B1.
    specialize (T c1 t1 eq_refl). lia.
  - assert (size = 1%nat) by lia. subst size.
    rewrite E; [reflexivity | lia | unfold utf8.RuneSelf in B; lia].
Qed.

Lemma Decode_single (c : ascii) (t : list ascii) (r : Z) (size : nat) :
  utf8.DecodeRuneInString (c :: t) = (r, size) ->
  (size <= 1)%nat -> utf8.RuneSelf <= byte c -> r = utf8.RuneError.
Proof.
  intros D S B. rewrite Decode_core in D.
  change (at_ (c :: t) 0) with (byte c) in D.
  destruct (core_single (List.length (c :: t)) _ _ _ _ _ _
              (byte_range c) ltac:(cbn [List.length]; lia) D) as [_ E].
  apply E; [exact S | unfold utf8.RuneSelf in B; lia].
Qed.

Lemma DecodeLast_loop_le (n : nat) (s : list ascii) (start lim : Z) :
  utf8.DecodeLastRune_loop n s start lim <= start.
Proof.
  revert start. induction n as [|n IH]; intros start; cbn; [lia|].
  destruct (start <? lim); [lia|].
  destruct (utf8.RuneStart _); [lia|].
  specialize (IH (start - 1)). lia.
Qed.

Lemma at_last (p : list ascii) (c : ascii) :
  at_ (p ++ [c]) (List.length p) = byte c.
Proof.
  unfold at_. rewrite app_nth2 by lia. now rewrite Nat.sub_diag.
Qed.

(** The three ways [DecodeLastRuneInString] answers on a string that ends
    with the byte [c]. *)
Lemma DecodeLast_cases (p : list ascii) (c : ascii) (r : Z) (size : nat) :
  utf8.DecodeLastRuneInString (p ++ [c]) = (r, size) ->
  (byte c < utf8.RuneSelf /\ r = byte c /\ size = 1%nat) \/
  (utf8.RuneSelf <= byte c /\ r = utf8.RuneError /\ size = 1%nat) \/
  (utf8.RuneSelf <= byte c /\ (2 <= size <= List.length (p ++ [c]))%nat /\
   utf8.DecodeRuneInString
     (skipn (List.length (p ++ [c]) - size) (p ++ [c])) = (r, size)).
Proof.
  unfold utf8.DecodeLastRuneInString.
  set (s := p ++ [c]).
  assert (L : List.length s = Datatypes.S (List.length p)).
  { unfold s. rewrite length_app. cbn. lia. }
  rewrite L.
  replace (Z.of_nat (Datatypes.S (List.length p)) =? 0) with false
    by (symmetry; apply Z.eqb_neq; lia).
  replace (Z.to_nat (Z.of_nat (Datatypes.S (List.length p)) - 1))
    with (List.length p) by lia.
  assert (A : at_ s (List.length p) = byte c) by apply at_last.
  rewrite A.
  destruct (byte c <? utf8.RuneSelf) eqn:B.
  - intros H. apply pair_equal_spec in H. destruct H as [<- <-].
    left. apply Z.ltb_lt in B. auto.
  - apply Z.ltb_ge in B. cbv zeta.
    set (e := Z.of_nat (Datatypes.S (List.length p))).
    assert (Ee : e = Z.of_nat (Datatypes.S (List.length p))) by reflexivity.
    set (lim := if e - utf8.UTFMax <? 0 then 0 else e - utf8.UTFMax).
    set (st := utf8.DecodeLastRune_loop _ s (e - 1 - 1) lim).
    set (start := if st <? 0 then 0 else st).
    assert (S0 : 0 <= start) by (unfold start; destruct (st <? 0) eqn:?; lia).
    assert (S1 : start <= e - 2 \/ start = 0).
    { unfold start. pose proof (DecodeLast_loop_le
        (Z.to_nat (e - 1 - 1 - lim + 1)) s (e - 1 - 1) lim).
      fold st in H. destruct (st <? 0) eqn:?; lia. }
    assert (F : firstn (Z.to_nat (e - start)) (skipn (Z.to_nat start) s)
                = skipn (Z.to_nat start) s).
    { apply firstn_all2. rewrite length_skipn, L. lia. }
    rewrite F.
    destruct (utf8.DecodeRuneInString (skipn (Z.to_nat start) s))
      as [r0 size0] eqn:D.
    destruct (start + Z.of_nat size0 =? e) eqn:E; cbn [negb];
      intros H; apply pair_equal_spec in H; destruct H as [<- <-].
    + apply Z.eqb_eq in E.
      destruct (le_lt_dec 2 size0) as [S2|S2].
      * right; right. split; [exact B|]. split; [lia|].
        replace (Datatypes.S (List.length p) - size0)%nat
          with (Z.to_nat start) by lia.
        exact D.
      * right; left. split; [exact B|].
        assert (NE : skipn (Z.to_nat start) s <> []).
        { intros N. apply (f_equal (@List.length ascii)) in N.
          rewrite length_skipn, L in N. cbn [List.length] in N. lia. }
        pose proof (Decode_size _ NE) as Sz. rewrite D in Sz. cbn [snd] in Sz.
        assert (size0 = 1%nat) by lia. subst size0.
        split; [|reflexivity].
        assert (K : skipn (Z.to_nat start) s = [c]).
        { replace (Z.to_nat start) with (List.length p) by lia.
          unfold s. rewrite skipn_app, Nat.sub_diag, skipn_all. reflexivity. }
        rewrite K in D.
        exact (Decode_single c [] r0 1 D (le_n 1) B).
    + right; left. auto.
Qed.

Lemma DecodeLast_nil :
  utf8.DecodeLastRuneInString [] = (utf8.RuneError, 0%nat).
Proof. reflexivity. Qed.

Lemma DecodeLast_ascii (p : list ascii) (c : ascii) :
  byte c < utf8.RuneSelf ->
  utf8.DecodeLastRuneInString (p ++ [c]) = (byte c, 1%nat).
Proof.
  intros B.
  destruct (utf8.DecodeLastRuneInString (p ++ [c])) as [r size] eqn:D.
  destruct (DecodeLast_cases p c r size D)
    as [(_ & -> & ->)|[(B' & _)|(B' & _)]]; [reflexivity | lia | lia].
Qed.

Lemma DecodeLast_size (s : list ascii) :
  s <> [] ->
  (1 <= snd (utf8.DecodeLastRuneInString s) <= List.length s)%nat.
Proof.
  intros NE. destruct (exists_last NE) as (p & c & ->).
  destruct (utf8.DecodeLastRuneInString (p ++ [c])) as [r size] eqn:D.
  cbn [snd]. rewrite length_app. cbn [List.length].
  destruct (DecodeLast_cases p c r size D)
    as [(_ & _ & ->)|[(_ & _ & ->)|(_ & S & _)]]; try lia.
  rewrite length_app in S. cbn [List.length] in S. lia.
Qed.
End Decoding.

Section Trimming.
Variable f : Z -> bool.

(** [indexFunc] walks over the runes that satisfy [f] and stops at the
    first one that does not; the bound on its steps is never reached
    before the end of the string. *)
Lemma indexFunc_loop_spec (n : nat) :
  forall (s : list ascii) (i : Z),
    (List.length s <= n)%nat ->
    let j := strings.indexFunc_loop n s i f false in
    (j = -1 /\ leading f s (List.length s)) \/
    (exists k,
        (k < List.length s)%nat /\ leading f s k /\
        f (fst (utf8.DecodeRuneInString (skipn k s))) = false /\
        j = i + Z.of_nat k).
Proof.
  induction n as [|n IH]; intros s i Hn; cbv zeta.
  - destruct s; [|cbn in Hn; lia]. left. split; [reflexivity | constructor].
  - cbn [strings.indexFunc_loop]. destruct s as [|c t].
    { left. split; [reflexivity | constructor]. }
    set (s := c :: t) in *.
    assert (NE : s <> []) by discriminate.
    pose proof (Decode_size s NE) as Sz.
    destruct (utf8.DecodeRuneInString s) as [r size] eqn:D. cbn [snd] in Sz.
    destruct (f r) eqn:F; cbn [Bool.eqb].
    + assert (Hn' : (List.length (skipn size s) <= n)%nat)
        by (rewrite length_skipn; lia).
      destruct (IH (skipn size s) (i + Z.of_nat size) Hn')
        as [[J L]|(k & K & L & N & J)]; cbv zeta in *.
      * left. split; [exact J|].
        rewrite length_skipn in L.
        replace (List.length s) with (size + (List.length s - size))%nat by lia.
        now apply (leading_S f s r).
      * right. exists (size + k)%nat. rewrite length_skipn in K.
        split; [lia|]. split; [now apply (leading_S f s r)|].
        rewrite skipn_skipn in N. rewrite (Nat.add_comm size k).
        split; [exact N | lia].
    + right. exists 0%nat. split; [lia|]. split; [constructor|].
      cbn [skipn]. rewrite D. split; [exact F | lia].
Qed.

(** [TrimLeftFunc] takes away the leading runes that satisfy [f], and what
    is left is empty or starts with a rune that does not. *)
Lemma TrimLeftFunc_spec (s : list ascii) :
  exists k,
    (k <= List.length s)%nat /\ leading f s k /\
    strings.TrimLeftFunc s f = skipn k s /\
    (skipn k s = [] \/
     f (fst (utf8.DecodeRuneInString (skipn k s))) = false).
Proof.
  unfold strings.TrimLeftFunc, strings.indexFunc.
  destruct (indexFunc_loop_spec (List.length s) s 0 (le_n _))
    as [[J L]|(k & K & L & N & J)]; cbv zeta in *; rewrite J.
  - exists (List.length s). rewrite skipn_all. cbn. auto.
  - exists k. replace (0 + Z.of_nat k =? -1) with false
      by (symmetry; apply Z.eqb_neq; lia).
    replace (Z.to_nat (0 + Z.of_nat k)) with k by lia.
    split; [lia|]. auto.
Qed.

(** [lastIndexFunc] walks back over the runes that satisfy [f] and stops at
    the last one that does not. *)
Lemma lastIndexFunc_loop_spec (s : list ascii) (n : nat) :
  forall e : nat,
    (e <= List.length s)%nat -> (e <= n)%nat ->
    let j := strings.lastIndexFunc_loop n s (Z.of_nat e) f false in
    (j = -1 /\ trailing f (firstn e s) e) \/
    (exists k r size,
        trailing f (firstn e s) k /\ (k + size <= e)%nat /\ (1 <= size)%nat /\
        utf8.DecodeLastRuneInString (firstn (e - k) s) = (r, size) /\
        f r = false /\
        j = Z.of_nat (e - k - size)).
Proof.
  induction n as [|n IH]; intros e He Hn; cbv zeta.
  - assert (e = 0%nat) by lia. subst e.
    left. split; [reflexivity | constructor].
  - cbn [strings.lastIndexFunc_loop].
    destruct (0 <? Z.of_nat e) eqn:P.
    2:{ assert (e = 0%nat) by lia. subst e.
        left. split; [reflexivity | constructor]. }
    rewrite Nat2Z.id.
    assert (Le : List.length (firstn e s) = e)
      by (rewrite length_firstn; lia).
    assert (NE : firstn e s <> []).
    { intros N. rewrite N in Le. cbn in Le. lia. }
    pose proof (DecodeLast_size _ NE) as Sz. rewrite Le in Sz.
    destruct (utf8.DecodeLastRuneInString (firstn e s)) as [r size] eqn:D.
    cbn [snd] in Sz.
    replace (Z.of_nat e - Z.of_nat size) with (Z.of_nat (e - size)) by lia.
    destruct (f r) eqn:F; cbn [Bool.eqb].
    + assert (T : forall k,
                 trailing f (firstn (e - size) s) k ->
                 trailing f (firstn e s) (size + k)).
      { intros k Tk. apply (trailing_S f _ r); auto.
        rewrite Le, firstn_firstn.
        now replace (Nat.min (e - size) e) with (e - size)%nat by lia. }
      destruct (IH (e - size)%nat ltac:(lia) ltac:(lia))
        as [[J L]|(k & r' & size' & L & K & S1 & D' & F' & J)];
        cbv zeta in *.
      * left. split; [exact J|].
        replace e with (size + (e - size))%nat at 2 by lia. now apply T.
      * right. exists (size + k)%nat, r', size'.
        split; [now apply T|]. split; [lia|]. split; [exact S1|].
        replace (e - (size + k))%nat with (e - size - k)%nat by lia.
        split; [exact D'|]. split; [exact F'|].
        exact J.
    + right. exists 0%nat, r, size.
      split; [constructor|]. split; [lia|]. split; [lia|].
      rewrite Nat.sub_0_r. auto.
Qed.

Lemma trailing_le (s : list ascii) (k : nat) :
  trailing f s k -> (k <= List.length s)%nat.
Proof.
  induction 1 as [|s r size k NE D F T IH]; [lia|].
  pose proof (DecodeLast_size s NE) as Sz. rewrite D in Sz. cbn [snd] in Sz.
  rewrite length_firstn in IH. lia.
Qed.

Lemma at_skipn (s t : list ascii) (c : ascii) (i : nat) :
  skipn i s = c :: t -> at_ s i = byte c.
Proof.
  revert s. induction i as [|i IH]; intros s E.
  - cbn in E. subst s. reflexivity.
  - destruct s as [|a s]; [discriminate|]. cbn in E.
    unfold at_ in *. cbn [nth]. now apply IH.
Qed.

Hypothesis f_RuneError : f utf8.RuneError = false.

(** A trailing run of runes that satisfy [f] starts with the first byte of
    a rune: a byte that continues nothing. *)
Lemma trailing_head (s : list ascii) (k : nat) :
  trailing f s k -> (0 < k)%nat ->
  exists c t,
    skipn (List.length s - k) s = c :: t /\ (byte c < 0x80 \/ 0xBF < byte c).
Proof.
  induction 1 as [|s r size k NE D F T IH]; [lia|]. intros _.
  pose proof (DecodeLast_size s NE) as Sz. rewrite D in Sz. cbn [snd] in Sz.
  destruct k as [|k].
  - rewrite Nat.add_0_r.
    destruct (exists_last NE) as (p & c & ->).
    destruct (DecodeLast_cases p c r size D)
      as [(B & _ & ->)|[(_ & -> & _)|(B & S & D')]].
    + exists c, []. rewrite length_app. cbn [List.length].
      replace (List.length p + 1 - 1)%nat with (List.length p) by lia.
      rewrite skipn_app, Nat.sub_diag, skipn_all.
      unfold utf8.RuneSelf in B. auto.
    + congruence.
    + destruct (Decode_multi _ _ _ D' (proj1 S)) as ((c0 & t0 & E & B0) & _).
      exists c0, t0. split; [exact E | lia].
  - destruct (IH ltac:(lia)) as (c & t & E & B).
    pose proof (trailing_le _ _ T) as Lk. rewrite length_firstn in Lk, E.
    exists c, (t ++ skipn (List.length s - size) s). split; [|exact B].
    rewrite <- (firstn_skipn (List.length s - size) s) at 2.
    rewrite skipn_app, length_firstn.
    replace (Nat.min (List.length s - size) (List.length s))
      with (List.length s - size)%nat in * by lia.
    replace (List.length s - (size + Datatypes.S k))%nat
      with (List.length s - size - Datatypes.S k)%nat by lia.
    rewrite E.
    replace (List.length s - size - Datatypes.S k - (List.length s - size))%nat
      with 0%nat by lia.
    reflexivity.
Qed.

(** [TrimRightFunc] takes away the trailing runes that satisfy [f], and
    what is left is empty or ends with a rune that does not. *)
Lemma TrimRightFunc_spec (s : list ascii) :
  exists k,
    (k <= List.length s)%nat /\ trailing f s k /\
    strings.TrimRightFunc s f = firstn (List.length s - k) s /\
    (strings.TrimRightFunc s f = [] \/
     f (fst (utf8.DecodeLastRuneInString (strings.TrimRightFunc s f)))
     = false).
Proof.
  unfold strings.TrimRightFunc, strings.lastIndexFunc.
  destruct (lastIndexFunc_loop_spec s (List.length s) (List.length s)
              (le_n _) (le_n _))
    as [[J T]|(k & r & size & T & K & S1 & D & F & J)];
    cbv zeta in *; rewrite firstn_all in T; rewrite J.
  - exists (List.length s). rewrite Nat.sub_diag. cbn. auto.
  - set (n := List.length s) in *. set (st := (n - k - size)%nat) in *.
    set (p := firstn (n - k) s) in *. set (rest := skipn (n - k) s).
    assert (Es : s = p ++ rest) by (symmetry; apply firstn_skipn).
    assert (Lp : List.length p = (n - k)%nat)
      by (unfold p; rewrite length_firstn; lia).
    assert (G : (if (0 <=? Z.of_nat st)
                    && (utf8.RuneSelf <=? at_ s st)
                 then
                   let '(_, wid) :=
                     utf8.DecodeRuneInString (skipn st s) in
                   Z.of_nat st + Z.of_nat wid
                 else Z.of_nat st + 1) = Z.of_nat (n - k)).
    { replace (0 <=? Z.of_nat st) with true
        by (symmetry; apply Z.leb_le; lia).
      cbn [andb].
      assert (NE : p <> []).
      { intros N. rewrite N in Lp. cbn in Lp. lia. }
      destruct (exists_last NE) as (p' & c & Ep).
      assert (Lp' : List.length p = Datatypes.S (List.length p'))
        by (rewrite Ep, length_app; cbn; lia).
      rewrite Ep in D.
      destruct (DecodeLast_cases p' c r size D)
        as [(B & _ & ->)|[(B & _ & ->)|(B & S & D')]].
      - assert (E : skipn st s = c :: rest).
        { rewrite Es, Ep, <- app_assoc, skipn_app.
          replace st with (List.length p') by lia.
          now rewrite skipn_all, Nat.sub_diag. }
        rewrite (at_skipn _ _ _ _ E).
        replace (utf8.RuneSelf <=? byte c) with false
          by (symmetry; apply Z.leb_gt; exact B).
        lia.
      - assert (E : skipn st s = c :: rest).
        { rewrite Es, Ep, <- app_assoc, skipn_app.
          replace st with (List.length p') by lia.
          now rewrite skipn_all, Nat.sub_diag. }
        rewrite (at_skipn _ _ _ _ E).
        replace (utf8.RuneSelf <=? byte c) with true
          by (symmetry; apply Z.leb_le; exact B).
        rewrite E, Decode_alone; [lia | exact B|].
        intros c1 t1 R.
        destruct (Nat.eq_dec k 0) as [->|Nk].
        + unfold rest in R. rewrite Nat.sub_0_r in R. unfold n in R.
          rewrite skipn_all in R. discriminate.
        + destruct (trailing_head s k T ltac:(lia)) as (c2 & t2 & E2 & B2).
          fold n in E2. fold rest in E2. rewrite R in E2.
          injection E2 as <- _. exact B2.
      - rewrite <- Ep in D'.
        replace (List.length p - size)%nat with st in D' by lia.
        destruct (Decode_multi _ _ _ D' (proj1 S))
          as ((c0 & t0 & E0 & B0) & _ & A).
        assert (Lc : List.length (skipn st p) = size)
          by (rewrite length_skipn; lia).
        assert (E : skipn st s = skipn st p ++ rest).
        { rewrite Es at 1. rewrite skipn_app.
          replace (st - List.length p)%nat with 0%nat by lia.
          reflexivity. }
        specialize (A rest). rewrite firstn_all2 in A by lia.
        rewrite <- E in A.
        assert (E' : skipn st s = c0 :: (t0 ++ rest))
          by (rewrite E, E0; reflexivity).
        rewrite (at_skipn _ _ _ _ E').
        replace (utf8.RuneSelf <=? byte c0) with true
          by (symmetry; apply Z.leb_le; unfold utf8.RuneSelf; lia).
        rewrite A. lia. }
    rewrite !Nat2Z.id, G, Nat2Z.id. fold p.
    exists k. split; [lia|]. split; [exact T|]. split; [reflexivity|].
    right. now rewrite D.
Qed.

(** Cutting a string short does not turn its first rune into one that
    satisfies [f]. *)
Lemma Decode_firstn (m : list ascii) (j : nat) :
  (1 <= j)%nat ->
  f (fst (utf8.DecodeRuneInString m)) = false ->
  f (fst (utf8.DecodeRuneInString (firstn j m))) = false.
Proof.
  intros J F. destruct m as [|c t]; [now rewrite firstn_nil|].
  destruct j as [|j]; [lia|]. cbn [firstn].
  destruct (utf8.DecodeRuneInString (c :: firstn j t)) as [r size] eqn:D.
  cbn [fst]. destruct (le_lt_dec 2 size) as [S2|S2].
  - destruct (Decode_multi _ _ _ D S2) as (_ & L & A).
    specialize (A (skipn size (c :: t))).
    change (c :: firstn j t) with (firstn (Datatypes.S j) (c :: t)) in A, L.
    rewrite length_firstn in L.
    rewrite firstn_firstn in A.
    replace (Nat.min size (Datatypes.S j)) with size in A by lia.
    rewrite firstn_skipn in A. rewrite A in F. exact F.
  - destruct (Z_lt_le_dec (byte c) utf8.RuneSelf) as [B|B].
    + rewrite Decode_ascii in D, F by exact B.
      injection D as <- _. exact F.
    + rewrite (Decode_single _ _ _ _ D ltac:(lia) B). exact f_RuneError.
Qed.

(** [TrimFunc]: the leading runes that satisfy [f] go, then the trailing
    ones. *)
Lemma TrimFunc_spec (s : list ascii) : trimmed f s (strings.TrimFunc s f).
Proof.
  unfold strings.TrimFunc.
  destruct (TrimLeftFunc_spec s) as (a & La & Ta & -> & Ha).
  destruct (TrimRightFunc_spec (skipn a s)) as (b & Lb & Tb & E & Hb).
  rewrite length_skipn in Lb, E.
  exists a, b. split; [lia|]. split; [exact Ta|]. split; [exact Tb|].
  split; [exact E|].
  destruct Hb as [Hb|Hb]; [left; exact Hb|].
  destruct (strings.TrimRightFunc (skipn a s) f) as [|c t] eqn:R;
    [left; reflexivity|].
  right. split; [|exact Hb].
  destruct Ha as [Ha|Ha].
  - rewrite Ha, firstn_nil in E. discriminate.
  - rewrite E. apply Decode_firstn; [|exact Ha].
    destruct (List.length s - a - b)%nat; [discriminate E | lia].
Qed.
End Trimming.

Lemma IsSpace_RuneError : unicode.IsSpace utf8.RuneError = false.
Proof. reflexivity. Qed.

Lemma IsSpace_ascii (c : ascii) :
  byte c < utf8.RuneSelf -> unicode.IsSpace (byte c) = space c.
Proof.
  intros B. pose proof (byte_range c) as R. unfold utf8.RuneSelf in B.
  unfold unicode.IsSpace, space, strings.asciiSpace.
  rewrite Z.mod_small by lia.
  replace (byte c <=? unicode.MaxLatin1) with true
    by (symmetry; apply Z.leb_le; unfold unicode.MaxLatin1; lia).
  replace (byte c =? 133) with false by (symmetry; apply Z.eqb_neq; lia).
  replace (byte c =? 160) with false by (symmetry; apply Z.eqb_neq; lia).
  rewrite !orb_false_r. destruct (_ || _); reflexivity.
Qed.

(** The second loop of [TrimSpace], on [s] read backwards. *)
Lemma TrimSpace_stop_spec (rs : list ascii) :
  exists b,
    (b <= List.length rs)%nat /\
    trailing unicode.IsSpace (rev rs) b /\
    strings.TrimSpace_stop rs = firstn (List.length rs - b) (rev rs) /\
    (strings.TrimSpace_stop rs = [] \/
     unicode.IsSpace
       (fst (utf8.DecodeLastRuneInString (strings.TrimSpace_stop rs)))
     = false).
Proof.
  induction rs as [|c rs IH].
  - exists 0%nat. cbn. repeat split; auto. constructor.
  - cbn [strings.TrimSpace_stop].
    destruct (utf8.RuneSelf <=? byte c) eqn:B.
    + destruct (TrimRightFunc_spec unicode.IsSpace IsSpace_RuneError
                  (rev (c :: rs))) as (b & Lb & Tb & E & Hb).
      rewrite length_rev in Lb, E. exists b. auto.
    + apply Z.leb_gt in B.
      rewrite asciiSpace_space.
      assert (D : utf8.DecodeLastRuneInString (rev (c :: rs)) = (byte c, 1%nat))
        by (cbn [rev]; now apply DecodeLast_ascii).
      destruct (space c) eqn:S; cbn [negb].
      * destruct IH as (b & Lb & Tb & E & Hb).
        exists (1 + b)%nat. cbn [List.length]. split; [lia|].
        assert (F : firstn (List.length (rev (c :: rs)) - 1) (rev (c :: rs))
                    = rev rs).
        { cbn [rev]. rewrite length_app, length_rev. cbn [List.length].
          replace (List.length rs + 1 - 1)%nat with (List.length (rev rs) + 0)%nat
            by (rewrite length_rev; lia).
          rewrite firstn_app_2. cbn. now rewrite app_nil_r. }
        split.
        { apply (trailing_S _ _ (byte c)); [cbn [rev]; now destruct (rev rs)
                                           | exact D
                                           | now rewrite IsSpace_ascii
                                           | now rewrite F]. }
        split; [|exact Hb].
        rewrite E. cbn [rev].
        replace (Datatypes.S (List.length rs) - (1 + b))%nat
          with (List.length rs - b)%nat by lia.
        rewrite firstn_app, length_rev.
        replace (List.length rs - b - List.length rs)%nat with 0%nat by lia.
        cbn. now rewrite app_nil_r.
      * exists 0%nat. split; [lia|]. split; [constructor|].
        rewrite Nat.sub_0_r, <- length_rev, firstn_all.
        split; [reflexivity|]. right.
        rewrite D. cbn [fst]. now rewrite IsSpace_ascii.
Qed.

(** [strings.TrimSpace] takes away the white space at the two ends of the
    string, and leaves white space at neither end. *)
Lemma TrimSpace_start_spec (s : list ascii) :
  trimmed unicode.IsSpace s (strings.TrimSpace_start s).
Proof.
  induction s as [|c s IH].
  - exists 0%nat, 0%nat. cbn. repeat split; auto; constructor.
  - cbn [strings.TrimSpace_start].
    destruct (utf8.RuneSelf <=? byte c) eqn:B.
    + apply TrimFunc_spec. exact IsSpace_RuneError.
    + apply Z.leb_gt in B. rewrite asciiSpace_space.
      pose proof (Decode_ascii c s B) as D.
      destruct (space c) eqn:S; cbn [negb].
      * destruct IH as (a & b & L & Ta & Tb & E & H).
        exists (1 + a)%nat, b. cbn [List.length skipn].
        split; [lia|].
        split; [apply (leading_S _ _ (byte c));
                [discriminate | exact D | now rewrite IsSpace_ascii
                 | exact Ta]|].
        split; [exact Tb|].
        split; [|exact H].
        exact E.
      * destruct (TrimSpace_stop_spec (rev (c :: s))) as (b & Lb & Tb & E & H).
        rewrite rev_involutive, length_rev in *.
        exists 0%nat, b. cbn [skipn]. split; [lia|]. split; [constructor|].
        split; [exact Tb|].
        rewrite Nat.sub_0_r. split; [exact E|].
        destruct H as [H|H]; [left; exact H|].
        destruct (strings.TrimSpace_stop (rev (c :: s))) as [|c' t'] eqn:R;
          [left; reflexivity|].
        right. split; [|exact H].
        rewrite E. apply (Decode_firstn _ IsSpace_RuneError).
        -- destruct (List.length (c :: s) - b)%nat; [discriminate E | lia].
        -- rewrite D. cbn [fst]. now rewrite IsSpace_ascii.
Qed.

(* ================================================================== *)
(** * The per-target pipeline: [download] *)

Section Pipeline.
Context {Env File Payload : Type} `{W : World Env File Payload}.

Abbreviation Go := (M Env (event File Payload)).

Lemma mapM_length {A B : Type} (f : A -> Go B) (l : list A) env :
  List.length (value (mapM f l env)) = List.length l.
Proof.
  revert env. induction l as [|a l IH]; intros env; simpl; auto.
  rewrite value_bind, value_bind. simpl. now rewrite IH.
Qed.

(** The loop with its accumulator does what attempting every item in turn
    does, and ends with the errors met, in item order, behind the ones it
    started with. *)
Lemma download_loop_mapM (d : downloader.Downloader)
    (data : list (extractors.Data Payload)) :
  forall (errs : list error) (env : Env),
    download_loop d data errs env =
    (errs ++ recorded (value (mapM (attempt d) data env)),
     world (mapM (attempt d) data env),
     trace (mapM (attempt d) data env)).
Proof.
  induction data as [|item data IH]; intros errs env.
  - simpl. unfold ret. simpl. now rewrite app_nil_r.
  - simpl. rewrite value_bind, world_bind, trace_bind.
    rewrite value_bind, world_bind, trace_bind. simpl.
    unfold attempt. destruct (extractors.Err item) as [itemErr|].
    + rewrite IH. simpl. now rewrite <- app_assoc, app_nil_r.
    + set (m := call _ _).
      rewrite (run_bind m _ env _ _ _ (run_eta (m env))).
      destruct (value (m env)) as [err|]; rewrite IH; simpl;
        rewrite ?app_nil_r, <- ?app_assoc; reflexivity.
Qed.

(** The download collaborator sees the valid items, each once, in order. *)
Lemma mapM_attempt_trace (d : downloader.Downloader)
    (data : list (extractors.Data Payload)) :
  forall env,
    trace (mapM (attempt d) data env) = map (Download d) (filter valid data).
Proof.
  induction data as [|item data IH]; intros env; simpl; auto.
  rewrite trace_bind, trace_bind. simpl. rewrite app_nil_r, IH.
  unfold attempt, valid. destruct (extractors.Err item); simpl; auto.
  now rewrite trace_call.
Qed.
(** After a successful extraction [download] goes on with the json branch
    or with the loop. *)
Lemma download_extracted (c : cli.Context) (videoURL : string)
    (env env1 : Env) (data : list (extractors.Data Payload)) :
  extractors_Extract videoURL (extractOptions c) env = (Ok data, env1) ->
  download c videoURL env =
  if cli.Bool c "json" then
    (fst (json_Encode jsonEncoder data env1),
     snd (json_Encode jsonEncoder data env1),
     [Extract videoURL (extractOptions c); Encode jsonEncoder data])
  else
    let outs := mapM (attempt (downloader.New (downloaderOptions c))) data env1 in
    (first_error (value outs), world outs,
     Extract videoURL (extractOptions c) :: trace outs).
Proof.
  intros H. unfold download.
  rewrite (run_bind _ _ env _ _ _ (run_call _ _ _ _ _ H)).
  destruct (cli.Bool c "json").
  - rewrite value_bind, world_bind, trace_bind.
    rewrite value_call, world_call, trace_call.
    destruct (json_Encode jsonEncoder data env1) as [[err|] env2]; reflexivity.
  - cbv zeta. rewrite value_bind, world_bind, trace_bind.
    rewrite download_loop_mapM. cbn [value world trace fst snd app].
    set (outs := mapM _ data env1).
    destruct (List.length (recorded (value outs)) =? 0)%nat eqn:E;
      cbn [negb]; unfold ret; cbn [value world trace fst snd];
      rewrite app_nil_r.
    + now rewrite (recorded_empty _ E).
    + now rewrite first_error_recorded.
Qed.

(** After a failing extraction [download] returns. *)
Lemma download_not_extracted (c : cli.Context) (videoURL : string)
    (env env1 : Env) (err : error) :
  extractors_Extract videoURL (extractOptions c) env = (Failed err, env1) ->
  download c videoURL env =
    (Some err, env1, [Extract videoURL (extractOptions c)]).
Proof.
  intros H. unfold download.
  rewrite (run_bind _ _ env _ _ _ (run_call _ _ _ _ _ H)). reflexivity.
Qed.

(** C3.  When the extraction call itself fails, [download] returns that
    very error, and the call of the extraction collaborator is all it did:
    no item is attempted, the download collaborator is not called. *)
Theorem download_extraction_failure (c : cli.Context) (videoURL : string)
    (env env1 : Env) (err : error) :
  extractors_Extract videoURL (extractOptions c) env = (Failed err, env1) ->
  download c videoURL env =
    (Some err, env1, [Extract videoURL (extractOptions c)]) /\
  downloaded (trace (download c videoURL env)) = [].
Proof.
  intros H. rewrite (download_not_extracted c videoURL env env1 err H).
  split; reflexivity.
Qed.

(** C2, amended.  When the json mode is off and extraction succeeds with
    the items [data], every item is attempted once and in order, whatever
    the earlier ones did: the valid items, and only they, reach the download
    collaborator, in item order, and the result of [download] is the first
    error in item order (an item's own error or its download error), or nil
    when there is none. *)
Theorem download_attempts_every_item (c : cli.Context) (videoURL : string)
    (env env1 : Env) (data : list (extractors.Data Payload)) :
  cli.Bool c "json" = false ->
  extractors_Extract videoURL (extractOptions c) env = (Ok data, env1) ->
  attempts_every_item c videoURL env data env1.
Proof.
  intros J H. unfold attempts_every_item. cbv zeta.
  rewrite (download_extracted c videoURL env env1 data H), J. cbv zeta.
  cbn [value world trace fst snd].
  rewrite mapM_length, mapM_attempt_trace. repeat split; reflexivity.
Qed.

(** C9, amended.  When extraction succeeds without items, the download
    collaborator is never called; with the json mode off the result is
    success, and with the json mode on it is the result of serializing the
    empty extraction. *)
Theorem download_no_items (c : cli.Context) (videoURL : string)
    (env env1 : Env) :
  extractors_Extract videoURL (extractOptions c) env = (Ok [], env1) ->
  (cli.Bool c "json" = false -> empty_extraction_succeeds c videoURL env) /\
  (cli.Bool c "json" = true ->
   downloaded (trace (download c videoURL env)) = [] /\
   value (download c videoURL env) = fst (json_Encode jsonEncoder [] env1)).
Proof.
  intros H. unfold empty_extraction_succeeds. cbv zeta.
  rewrite (download_extracted c videoURL env env1 [] H).
  split; intros J; rewrite J; split; reflexivity.
Qed.

(** C10.  In json mode the items' own errors are not looked at: whatever
    the items are, when extraction and serialization both succeed the result
    of [download] is success.  The same extraction with the json mode off
    fails as soon as its first item carries an error (so, in particular,
    when every item does): the result is that item's error. *)
Theorem download_json_ignores_item_errors (c : cli.Context)
    (videoURL : string) (env env1 env2 : Env)
    (data : list (extractors.Data Payload)) :
  cli.Bool c "json" = true ->
  extractors_Extract videoURL (extractOptions c) env = (Ok data, env1) ->
  json_Encode jsonEncoder data env1 = (None, env2) ->
  download c videoURL env =
    (None, env2,
     [Extract videoURL (extractOptions c); Encode jsonEncoder data]) /\
  (forall (c' : cli.Context) (env' env1' : Env) item itemErr rest,
      cli.Bool c' "json" = false ->
      data = item :: rest ->
      extractors.Err item = Some itemErr ->
      extractors_Extract videoURL (extractOptions c') env' = (Ok data, env1') ->
      value (download c' videoURL env') = Some itemErr).
Proof.
  intros J H E. split.
  - rewrite (download_extracted c videoURL env env1 data H), J, E.
    reflexivity.
  - intros c' env' env1' item itemErr rest J' D I H'.
    rewrite (download_extracted c' videoURL env' env1' data H'), J'.
    cbv zeta. cbn [value fst]. subst data. cbn [mapM].
    rewrite value_bind, value_bind. unfold attempt at 1. rewrite I.
    reflexivity.
Qed.
End Pipeline.

(* ================================================================== *)
(** * The batch: the loop of [Action] *)

Section Batch.
Context {Env File Payload : Type} `{W : World Env File Payload}.

Abbreviation Go := (M Env (event File Payload)).

Lemma mapM_cons {A B : Type} (f : A -> Go B) (a : A) (l : list A) env :
  mapM f (a :: l) env =
  (value (f a env) :: value (mapM f l (world (f a env))),
   world (mapM f l (world (f a env))),
   trace (f a env) ++ trace (mapM f l (world (f a env)))).
Proof.
  cbn [mapM]. rewrite (run_eta (bind _ _ env)).
  rewrite value_bind, world_bind, trace_bind.
  rewrite value_bind, world_bind, trace_bind.
  cbn. now rewrite app_nil_r.
Qed.

(** Everything [download] does is work on its target. *)
Lemma download_trace_processing (c : cli.Context) (videoURL : string) env :
  Forall (fun ev => processing ev = true) (trace (download c videoURL env)).
Proof.
  destruct (extractors_Extract videoURL (extractOptions c) env)
    as [[data|err] env1] eqn:H.
  - rewrite (download_extracted c videoURL env env1 data H).
    destruct (cli.Bool c "json"); cbn [trace snd].
    + repeat constructor.
    + constructor; [reflexivity|]. rewrite mapM_attempt_trace.
      apply Forall_forall. intros ev Hin. apply in_map_iff in Hin.
      destruct Hin as [item [<- _]]. reflexivity.
  - rewrite (download_not_extracted c videoURL env env1 err H).
    repeat constructor.
Qed.

Lemma downloads_no_extract (d : downloader.Downloader)
    (l : list (extractors.Data Payload)) :
  extract_urls (map (@Download File Payload d) l) = [] /\
  extract_options (map (@Download File Payload d) l) = [].
Proof. induction l as [|item l IH]; [split; reflexivity | exact IH]. Qed.

(** [download] calls the extraction collaborator once, on its target, with
    the options built from the flags. *)
Lemma download_trace_extract (c : cli.Context) (videoURL : string) env :
  extract_urls (trace (download c videoURL env)) = [videoURL] /\
  extract_options (trace (download c videoURL env)) = [extractOptions c].
Proof.
  destruct (extractors_Extract videoURL (extractOptions c) env)
    as [[data|err] env1] eqn:H.
  - rewrite (download_extracted c videoURL env env1 data H).
    destruct (cli.Bool c "json"); cbn [trace snd]; [split; reflexivity|].
    rewrite mapM_attempt_trace.
    destruct (downloads_no_extract (downloader.New (downloaderOptions c))
                (filter valid data)) as [U O].
    unfold extract_urls, extract_options in *. cbn [flat_map app].
    rewrite U, O. split; reflexivity.
  - rewrite (download_not_extracted c videoURL env env1 err H).
    split; reflexivity.
Qed.

Lemma processing_not_diagnostic (l : list (event File Payload)) :
  Forall (fun ev => processing ev = true) l -> filter diagnostic l = [].
Proof.
  induction 1 as [|ev l Hev _ IH]; [reflexivity|].
  cbn [filter]. rewrite IH. destruct ev; try discriminate; reflexivity.
Qed.

Lemma run_process (c : cli.Context) (videoURL : string) env :
  let D := download c videoURL env in
  value (process c videoURL env) = value D /\
  trace (process c videoURL env) = trace D ++ diagnosis (videoURL, value D) /\
  world (process c videoURL env) =
    match value D with
    | Some err => world (report videoURL err (world D))
    | None => world D
    end.
Proof.
  cbv zeta. unfold process.
  rewrite value_bind, trace_bind, world_bind.
  rewrite value_bind, trace_bind, world_bind.
  unfold diagnosis. cbn [fst snd].
  destruct (value (download c videoURL env)) as [err|];
    cbn; rewrite ?app_nil_r; repeat split; reflexivity.
Qed.

(** The loop with its flag does what taking every target in turn does, and
    ends with the flag raised if it was raised at the start or some target
    failed. *)
Lemma Action_loop_mapM (c : cli.Context) (args : list string) :
  forall (isErr : bool) (env : Env),
    Action_loop c args isErr env =
    (isErr || existsb failed (value (mapM (process c) args env)),
     world (mapM (process c) args env),
     trace (mapM (process c) args env)).
Proof.
  induction args as [|videoURL args IH]; intros isErr env.
  - cbn. now rewrite orb_false_r.
  - rewrite mapM_cons. cbn [value world trace fst snd existsb Action_loop].
    rewrite (run_eta (bind _ _ env)).
    rewrite value_bind, world_bind, trace_bind.
    destruct (run_process c videoURL env) as (-> & -> & ->).
    unfold diagnosis. cbn [fst snd].
    destruct (value (download c videoURL env)) as [err|].
    + rewrite value_bind, world_bind, trace_bind, IH.
      cbn. rewrite orb_true_r, <- !app_assoc. reflexivity.
    + rewrite IH. cbn. rewrite app_nil_r. reflexivity.
Qed.

Lemma mapM_process_extract (c : cli.Context) (args : list string) :
  forall env,
    extract_urls (trace (mapM (process c) args env)) = args /\
    extract_options (trace (mapM (process c) args env))
    = map (fun _ => extractOptions c) args.
Proof.
  induction args as [|videoURL args IH]; intros env; [split; reflexivity|].
  rewrite mapM_cons. cbn [trace snd].
  destruct (run_process c videoURL env) as (_ & -> & _).
  destruct (download_trace_extract c videoURL env) as [U O].
  destruct (IH (world (process c videoURL env))) as [IHU IHO].
  unfold extract_urls, extract_options in *.
  rewrite !flat_map_app, U, O, IHU, IHO.
  unfold diagnosis. cbn [fst snd].
  destruct (value (download c videoURL env)); split; reflexivity.
Qed.

Lemma mapM_process_diagnostics (c : cli.Context) (args : list string) :
  forall env,
    filter diagnostic (trace (mapM (process c) args env)) =
    flat_map diagnosis (combine args (value (mapM (process c) args env))).
Proof.
  induction args as [|videoURL args IH]; intros env; [reflexivity|].
  rewrite mapM_cons. cbn [value trace fst snd combine flat_map].
  destruct (run_process c videoURL env) as (-> & -> & _).
  rewrite !filter_app, IH.
  rewrite (processing_not_diagnostic _ (download_trace_processing c videoURL env)).
  f_equal. unfold diagnosis. cbn [fst snd].
  destruct (value (download c videoURL env)); reflexivity.
Qed.

(** The batch is: every target in turn, then the verdict. *)
Lemma Action_batch_run (c : cli.Context) (args : list string) (env : Env) :
  let outs := mapM (process c) args env in
  Action_batch c args env =
  (if existsb failed (value outs) then Some (cli.Exit EmptyString 1) else None,
   world outs, trace outs).
Proof.
  cbv zeta. unfold Action_batch.
  rewrite (run_eta (bind _ _ env)), value_bind, world_bind, trace_bind.
  rewrite Action_loop_mapM. cbn [value world trace fst snd orb].
  destruct (existsb failed _); cbn; now rewrite app_nil_r.
Qed.

(** A failing target, whatever made it fail: its two lines are printed,
    the batch goes on with the other targets, and the verdict is failure. *)
Lemma Action_batch_failure (c : cli.Context) (videoURL : string)
    (rest : list string) (env : Env) (err : error) :
  let D := download c videoURL env in
  value D = Some err ->
  let K := Action_batch c rest
             (fmt_Printf_error err
                (fmt_Fprintf_Downloading_error videoURL (world D))) in
  Action_batch c (videoURL :: rest) env =
  (Some (cli.Exit EmptyString 1), world K,
   trace D ++ [Fprintf_Downloading_error videoURL; Printf_error err]
   ++ trace K).
Proof.
  cbv zeta. intros V. rewrite !Action_batch_run. cbv zeta.
  rewrite mapM_cons. cbn [value world trace fst snd existsb].
  destruct (run_process c videoURL env) as (-> & -> & ->).
  rewrite V. cbn [failed orb diagnosis fst snd].
  rewrite <- app_assoc. reflexivity.
Qed.

(** C1.  The batch takes every target of the list in turn, whatever the
    earlier ones did: the extraction collaborator is called on each target
    once, in list order, and there is one outcome per target.  [Action]
    returns nil (exit status 0) when every outcome is a success and
    [cli.Exit] with code 1 (exit status 1) when some outcome is a failure, and
    the lines printed are, for each failing target and in order, the line
    naming the target and the line with its error.  (So for every list of
    targets, the non-empty ones in particular.) *)
Theorem batch_processes_every_target (c : cli.Context) (args : list string)
    (env : Env) :
  let r := Action_batch c args env in
  let outs := mapM (process c) args env in
  extract_urls (trace r) = args /\
  List.length (value outs) = List.length args /\
  trace r = trace outs /\
  world r = world outs /\
  (forallb (fun out => negb (failed out)) (value outs) = true ->
   value r = None /\ exitStatus (value r) = 0) /\
  (existsb failed (value outs) = true ->
   value r = Some (cli.Exit EmptyString 1) /\ exitStatus (value r) = 1) /\
  filter diagnostic (trace r) = flat_map diagnosis (combine args (value outs)).
Proof.
  cbv zeta. rewrite Action_batch_run. cbv zeta.
  cbn [value world trace fst snd].
  set (outs := mapM (process c) args env).
  assert (S : forallb (fun out => negb (failed out)) (value outs) = true ->
              existsb failed (value outs) = false).
  { intros H. apply not_true_is_false. intros E. apply existsb_exists in E.
    destruct E as [out [Hin Hf]].
    rewrite forallb_forall in H. specialize (H out Hin).
    now rewrite Hf in H. }
  split; [apply mapM_process_extract|].
  split; [apply mapM_length|].
  split; [reflexivity|]. split; [reflexivity|].
  split; [intros H; rewrite (S H); split; reflexivity|].
  split; [intros H; rewrite H; split; reflexivity|].
  apply mapM_process_diagnostics.
Qed.
End Batch.

(* ================================================================== *)
(** * The whole of [Action] *)

Section Run.
Context {Env File Payload : Type} `{W : World Env File Payload}.

Abbreviation Go := (M Env (event File Payload)).

(** Events that are no work on a target leave nothing in the views of a
    trace that look for such work. *)
Lemma idle_trace (l : list (event File Payload)) :
  Forall (fun ev => processing ev = false) l ->
  filter processing l = [] /\ extract_urls l = [] /\ extract_options l = [].
Proof.
  induction 1 as [|ev l Hev _ (IH1 & IH2 & IH3)]; [repeat split|].
  unfold extract_urls, extract_options in *. cbn [filter flat_map].
  rewrite Hev, IH1, IH2, IH3.
  destruct ev; try discriminate; repeat split.
Qed.

Lemma bookkeeping_idle (l : list (event File Payload)) :
  Forall (fun ev => bookkeeping ev = true) l ->
  Forall (fun ev => processing ev = false) l.
Proof.
  apply Forall_impl. intros ev; destruct ev; try discriminate; reflexivity.
Qed.

Lemma string_eqb_empty (s : string) :
  (s =? EmptyString)%string = true <-> s = EmptyString.
Proof. apply String.eqb_eq. Qed.

(** The three ways through the cookie block. *)
Lemma Action_cookie_cases (c : cli.Context) (env : Env) :
  let cookie := cli.String c "cookie" in
  (cookie = EmptyString -> Action_cookie c env = (Ok cookie, env, [])) /\
  (cookie <> EmptyString ->
   forall fileErr env1,
     os_Stat cookie env = (Some fileErr, env1) ->
     Action_cookie c env = (Ok cookie, env1, [Stat cookie])) /\
  (cookie <> EmptyString ->
   forall env1 r env2,
     os_Stat cookie env = (None, env1) ->
     os_ReadFile cookie env1 = (r, env2) ->
     Action_cookie c env =
       (match r with
        | Ok data => Ok (strings.TrimSpace data)
        | Failed err => Failed err
        end, env2, [Stat cookie; ReadFile cookie])).
Proof.
  cbv zeta. unfold Action_cookie. repeat split.
  - intros E. rewrite E. reflexivity.
  - intros NE fileErr env1 S.
    apply String.eqb_neq in NE. rewrite NE. cbn [negb].
    rewrite (run_bind _ _ env _ _ _ (run_call _ _ _ _ _ S)). reflexivity.
  - intros NE env1 r env2 S R.
    apply String.eqb_neq in NE. rewrite NE. cbn [negb].
    rewrite (run_bind _ _ env _ _ _ (run_call _ _ _ _ _ S)).
    rewrite (run_bind _ _ env1 _ _ _ (run_call _ _ _ _ _ R)).
    destruct r; reflexivity.
Qed.

(** The cookie block looks at the file system and does nothing else. *)
Lemma Action_cookie_idle (c : cli.Context) (env : Env) :
  Forall (fun ev => processing ev = false) (trace (Action_cookie c env)).
Proof.
  destruct (string_dec (cli.String c "cookie") EmptyString) as [E|NE].
  - destruct (Action_cookie_cases c env) as (C1 & _).
    rewrite (C1 E). constructor.
  - destruct (os_Stat (cli.String c "cookie") env) as [[fileErr|] env1] eqn:S.
    + destruct (Action_cookie_cases c env) as (_ & C2 & _).
      rewrite (C2 NE _ _ S). repeat constructor.
    + destruct (os_ReadFile (cli.String c "cookie") env1) as [r env2] eqn:R.
      destruct (Action_cookie_cases c env) as (_ & _ & C3).
      rewrite (C3 NE _ _ _ S R). repeat constructor.
Qed.

(** What [Action] does with a work list. *)
Lemma Action_run_cases (c : cli.Context) (args : list string) (env : Env) :
  let ck := Action_cookie c env in
  (args = [] ->
   Action_run c args env = (Some (errors.New "too few arguments"), env, [])) /\
  (args <> [] ->
   forall err,
     value ck = Failed err ->
     Action_run c args env = (Some err, world ck, trace ck)) /\
  (args <> [] ->
   forall cookie,
     value ck = Ok cookie ->
     let o := requestOptions c cookie in
     let B := Action_batch c args (request_SetOptions o (world ck)) in
     Action_run c args env =
       (value B, world B, trace ck ++ SetOptions o :: trace B)).
Proof.
  cbv zeta. unfold Action_run. repeat split.
  - intros ->. reflexivity.
  - intros NE err V. destruct args as [|a args]; [contradiction|].
    cbn [List.length Nat.ltb Nat.leb].
    rewrite (run_eta (bind _ _ env)), value_bind, world_bind, trace_bind, V.
    cbn. now rewrite app_nil_r.
  - intros NE cookie V. destruct args as [|a args]; [contradiction|].
    cbn [List.length Nat.ltb Nat.leb].
    rewrite (run_eta (bind _ _ env)), value_bind, world_bind, trace_bind, V.
    rewrite value_bind, world_bind, trace_bind. reflexivity.
Qed.

(** The work list: the command-line identifiers, with the identifiers of
    the input file behind them when there is one. *)
Lemma Action_worklist_cases (c : cli.Context) (env : Env) :
  let env0 := world (Action_debug c env) in
  let file := cli.String c "file" in
  let wl := Action_worklist c env in
  (file = EmptyString ->
   wl = (Ok (cli.Args c), env0, trace (Action_debug c env))) /\
  (file <> EmptyString ->
   forall err env1,
     os_Open file env0 = (Failed err, env1) ->
     wl = (Failed err, env1, trace (Action_debug c env) ++ [Open file])) /\
  (file <> EmptyString ->
   forall f env1,
     os_Open file env0 = (Ok f, env1) ->
     let items := cli.String c "items" in
     let itemStart := int (cli.Uint c "start") in
     let itemEnd := int (cli.Uint c "end") in
     let parsed := utils_ParseInputFile f items itemStart itemEnd env1 in
     wl = (Ok (cli.Args c ++ fst parsed), snd parsed,
           trace (Action_debug c env)
           ++ [Open file; ParseInputFile f items itemStart itemEnd])).
Proof.
  cbv zeta. unfold Action_worklist.
  rewrite (run_eta (bind _ _ env)), value_bind, world_bind, trace_bind.
  repeat split.
  - intros ->. cbn. now rewrite app_nil_r.
  - intros NE err env1 O. apply String.eqb_neq in NE. rewrite NE. cbn [negb].
    rewrite (run_bind _ _ _ _ _ _ (run_call _ _ _ _ _ O)). reflexivity.
  - intros NE f env1 O. apply String.eqb_neq in NE. rewrite NE. cbn [negb].
    rewrite (run_bind _ _ _ _ _ _ (run_call _ _ _ _ _ O)).
    rewrite value_bind, world_bind, trace_bind.
    rewrite value_call, world_call, trace_call. reflexivity.
Qed.

Lemma Action_debug_bookkeeping (c : cli.Context) (env : Env) :
  Forall (fun ev => bookkeeping ev = true) (trace (Action_debug c env)).
Proof.
  unfold Action_debug. destruct (cli.Bool c "debug"); repeat constructor.
Qed.

(** [Action] builds the work list and goes on with it; what it does before
    and after is bookkeeping. *)
Lemma Action_after_worklist (c : cli.Context) (env : Env) :
  let wl := Action_worklist c env in
  Forall (fun ev => bookkeeping ev = true) (trace wl) /\
  match value wl with
  | Failed err => Action c env = (Some err, world wl, trace wl)
  | Ok args =>
      let R := Action_run c args (world wl) in
      exists post,
        Forall (fun ev => bookkeeping ev = true) post /\
        value (Action c env) = value R /\
        trace (Action c env) = trace wl ++ trace R ++ post
  end.
Proof.
  cbv zeta.
  pose proof (Action_debug_bookkeeping c env) as D.
  unfold Action.
  rewrite (run_eta (bind _ _ env)), value_bind, world_bind, trace_bind.
  destruct (string_dec (cli.String c "file") EmptyString) as [E|NE].
  - destruct (Action_worklist_cases c env) as (C1 & _). cbv zeta in C1.
    rewrite (C1 E), E. cbn [value world trace fst snd negb String.eqb].
    split; [exact D|]. exists []. rewrite app_nil_r.
    repeat split. constructor.
  - pose proof NE as NE'. apply String.eqb_neq in NE'. rewrite NE'.
    cbn [negb].
    destruct (os_Open (cli.String c "file") (world (Action_debug c env)))
      as [[f|err] env1] eqn:O;
      destruct (Action_worklist_cases c env) as (_ & C2 & C3);
      cbv zeta in C2, C3.
    + rewrite (C3 NE f env1 O). cbn [value world trace fst snd].
      split.
      { apply Forall_app. split; [exact D | repeat constructor]. }
      exists [Close f]. split; [repeat constructor|].
      rewrite (run_bind _ _ _ _ _ _ (run_call _ _ _ _ _ O)).
      cbn [value world trace fst snd]. unfold defer.
      rewrite !value_bind, !trace_bind, !world_bind.
      rewrite value_call, world_call, trace_call.
      cbn. rewrite <- !app_assoc. split; reflexivity.
    + rewrite (C2 NE err env1 O). cbn [value world trace fst snd].
      split.
      { apply Forall_app. split; [exact D | repeat constructor]. }
      rewrite (run_bind _ _ _ _ _ _ (run_call _ _ _ _ _ O)). reflexivity.
Qed.
(** The views of the trace of [Action] when it got as far as the batch. *)
Lemma Action_trace_views (c : cli.Context) (env : Env) (args : list string) :
  value (Action_worklist c env) = Ok args ->
  let R := Action_run c args (world (Action_worklist c env)) in
  value (Action c env) = value R /\
  filter processing (trace (Action c env)) = filter processing (trace R) /\
  extract_urls (trace (Action c env)) = extract_urls (trace R) /\
  extract_options (trace (Action c env)) = extract_options (trace R).
Proof.
  intros V. cbv zeta.
  destruct (Action_after_worklist c env) as [B A]. cbv zeta in A.
  rewrite V in A. destruct A as (post & P & -> & ->).
  destruct (idle_trace _ (bookkeeping_idle _ B)) as (B1 & B2 & B3).
  destruct (idle_trace _ (bookkeeping_idle _ P)) as (P1 & P2 & P3).
  unfold extract_urls, extract_options in *.
  rewrite !filter_app, !flat_map_app, B1, B2, B3, P1, P2, P3, !app_nil_r.
  repeat split.
Qed.

(** Every call of the extraction collaborator gets the options built from
    the flags, and so the [cookie] flag as it was given. *)
Lemma Action_extract_options (c : cli.Context) (env : Env) :
  Forall (fun o => o = extractOptions c)
         (extract_options (trace (Action c env))).
Proof.
  destruct (Action_after_worklist c env) as [B A]. cbv zeta in A.
  destruct (value (Action_worklist c env)) as [args|err] eqn:V.
  - destruct (Action_trace_views c env args V) as (_ & _ & _ & ->).
    set (env1 := world (Action_worklist c env)).
    destruct (Action_run_cases c args env1) as (R1 & R2 & R3).
    cbv zeta in *.
    destruct args as [|a args]; [rewrite R1; [constructor | reflexivity]|].
    pose proof (Action_cookie_idle c env1) as I.
    destruct (idle_trace _ I) as (_ & _ & I3).
    destruct (value (Action_cookie c env1)) as [cookie|err] eqn:K.
    + rewrite (R3 ltac:(discriminate) cookie eq_refl). cbn [trace snd].
      unfold extract_options in *. rewrite flat_map_app, I3.
      cbn [flat_map app]. rewrite Action_batch_run. cbn [trace snd].
      destruct (mapM_process_extract c (a :: args)
                  (request_SetOptions (requestOptions c cookie)
                     (world (Action_cookie c env1)))) as [_ O].
      unfold extract_options in O. rewrite O.
      apply Forall_forall. intros o Hin. apply in_map_iff in Hin.
      now destruct Hin as (_ & <- & _).
    + rewrite (R2 ltac:(discriminate) err eq_refl). cbn [trace snd].
      rewrite I3. constructor.
  - rewrite A. cbn [trace snd].
    destruct (idle_trace _ (bookkeeping_idle _ B)) as (_ & _ & ->).
    constructor.
Qed.

(** C6.  When the work list is empty once the command-line identifiers and
    the identifiers of the input file (if one is given) are put together,
    [Action] returns the error "too few arguments", which is not success,
    and no target has been worked on: no extraction, no serialization, no
    download. *)
Theorem Action_empty_worklist (c : cli.Context) (env : Env) :
  value (Action_worklist c env) = Ok [] ->
  value (Action c env) = Some (errors.New "too few arguments") /\
  value (Action c env) <> None /\
  filter processing (trace (Action c env)) = [] /\
  request_options (trace (Action c env)) = [].
Proof.
  intros V.
  destruct (Action_after_worklist c env) as [B A]. cbv zeta in A.
  rewrite V in A. destruct A as (post & P & Val & T).
  destruct (Action_run_cases c [] (world (Action_worklist c env)))
    as (R1 & _).
  rewrite (R1 eq_refl) in Val, T. cbn [value trace fst snd app] in Val, T.
  rewrite Val, T. split; [reflexivity|]. split; [discriminate|].
  assert (I : Forall (fun ev => bookkeeping ev = true)
                     (trace (Action_worklist c env) ++ post))
    by (apply Forall_app; split; assumption).
  split; [apply (idle_trace _ (bookkeeping_idle _ I))|].
  clear - I. induction I as [|ev l Hev _ IH]; [reflexivity|].
  unfold request_options in *. cbn [flat_map]. rewrite IH.
  destruct ev; try discriminate; reflexivity.
Qed.

(** C7.  The work list is the command-line identifiers in their order,
    with, when an input file is given, the identifiers
    [utils.ParseInputFile] returns behind them, in the order it returns
    them.  When the input file cannot be opened [Action] returns the error
    of [os.Open] and works on no target.  And the list is not deduplicated:
    once the preconditions hold (the list is not empty, the cookie is
    resolved) the extraction collaborator is called on the identifiers of
    the list, as many times as they occur and in the order of the list. *)
Theorem Action_worklist_order (c : cli.Context) (env : Env) :
  let env0 := world (Action_debug c env) in
  let file := cli.String c "file" in
  let wl := Action_worklist c env in
  (file = EmptyString -> value wl = Ok (cli.Args c)) /\
  (file <> EmptyString ->
   forall f env1,
     os_Open file env0 = (Ok f, env1) ->
     let fileItems :=
       fst (utils_ParseInputFile f (cli.String c "items")
              (int (cli.Uint c "start")) (int (cli.Uint c "end")) env1) in
     value wl = Ok (cli.Args c ++ fileItems)) /\
  (file <> EmptyString ->
   forall err env1,
     os_Open file env0 = (Failed err, env1) ->
     value (Action c env) = Some err /\
     filter processing (trace (Action c env)) = []) /\
  (forall args cookie,
     value wl = Ok args ->
     args <> [] ->
     value (Action_cookie c (world wl)) = Ok cookie ->
     extract_urls (trace (Action c env)) = args).
Proof.
  cbv zeta.
  destruct (Action_worklist_cases c env) as (C1 & C2 & C3). cbv zeta in *.
  split; [intros E; now rewrite (C1 E)|].
  split; [intros NE f env1 O; now rewrite (C3 NE f env1 O)|].
  split.
  - intros NE err env1 O.
    destruct (Action_after_worklist c env) as [B A]. cbv zeta in A.
    rewrite (C2 NE err env1 O) in A, B. cbn [value world trace fst snd] in A, B.
    rewrite A. split; [reflexivity|].
    apply (idle_trace _ (bookkeeping_idle _ B)).
  - intros args cookie V NE K.
    destruct (Action_trace_views c env args V) as (_ & _ & -> & _).
    destruct (Action_run_cases c args (world (Action_worklist c env)))
      as (_ & _ & R3). cbv zeta in R3.
    rewrite (R3 NE cookie K). cbn [trace snd].
    pose proof (Action_cookie_idle c (world (Action_worklist c env))) as I.
    destruct (idle_trace _ I) as (_ & I2 & _).
    unfold extract_urls in *. rewrite flat_map_app, I2.
    cbn [flat_map app]. rewrite Action_batch_run. cbn [trace snd].
    apply mapM_process_extract.
Qed.

(** C5.  The cookie block of [Action]: an empty value stays as it is; a
    value that names an existing entry of the file system ([os.Stat]
    succeeds) becomes [strings.TrimSpace] of what [os.ReadFile] reads, which
    is the contents without the white space runes at its two ends
    ([trimmed]; for ASCII contents, [strip]), so that a file with two
    spaces, [token=xyz] and a newline gives [token=xyz]; any other value
    stays as it is; and when [os.ReadFile]
    fails on an existing entry, [Action] returns its error and no target has
    been worked on ([env] is the world in which the cookie block runs,
    [env'] the one [Action] starts in). *)
Theorem Action_cookie_resolved (c : cli.Context) (env : Env) :
  let cookie := cli.String c "cookie" in
  (cookie = EmptyString -> Action_cookie c env = (Ok cookie, env, [])) /\
  (cookie <> EmptyString ->
   forall env1 data env2,
     os_Stat cookie env = (None, env1) ->
     os_ReadFile cookie env1 = (Ok data, env2) ->
     Action_cookie c env =
       (Ok (strings.TrimSpace data), env2, [Stat cookie; ReadFile cookie])) /\
  (forall data,
     trimmed unicode.IsSpace (list_ascii_of_string data)
       (list_ascii_of_string (strings.TrimSpace data))) /\
  (forall data,
     Forall plain (list_ascii_of_string data) ->
     strings.TrimSpace data
     = string_of_list_ascii (strip (list_ascii_of_string data))) /\
  strings.TrimSpace Demo.cookie_file = "token=xyz" /\
  (cookie <> EmptyString ->
   forall fileErr env1,
     os_Stat cookie env = (Some fileErr, env1) ->
     Action_cookie c env = (Ok cookie, env1, [Stat cookie])) /\
  (cookie <> EmptyString ->
   forall env1 err env2,
     os_Stat cookie env = (None, env1) ->
     os_ReadFile cookie env1 = (Failed err, env2) ->
     Action_cookie c env = (Failed err, env2, [Stat cookie; ReadFile cookie]) /\
     forall env' args,
       value (Action_worklist c env') = Ok args ->
       world (Action_worklist c env') = env ->
       args <> [] ->
       value (Action c env') = Some err /\
       filter processing (trace (Action c env')) = []).
Proof.
  cbv zeta.
  destruct (Action_cookie_cases c env) as (C1 & C2 & C3). cbv zeta in *.
  split; [exact C1|].
  split; [intros NE env1 data env2 S R; exact (C3 NE env1 (Ok data) env2 S R)|].
  split.
  { intros data. unfold strings.TrimSpace.
    rewrite list_ascii_of_string_of_list_ascii. apply TrimSpace_start_spec. }
  split.
  { intros data P. unfold strings.TrimSpace.
    now rewrite (TrimSpace_start_plain _ P). }
  split; [reflexivity|].
  split; [exact C2|].
  intros NE env1 err env2 S R.
  pose proof (C3 NE env1 (Failed err) env2 S R) as K.
  split; [exact K|].
  intros env' args Va Wa NEa.
  destruct (Action_trace_views c env' args Va) as (-> & -> & _).
  rewrite Wa.
  destruct (Action_run_cases c args env) as (_ & R2 & _). cbv zeta in R2.
  assert (Vk : value (Action_cookie c env) = Failed err) by now rewrite K.
  rewrite (R2 NEa err Vk), K. split; reflexivity.
Qed.

(** C8.  In json mode, when extraction succeeds, [download] calls the
    encoder on the raw result and nothing else: the download collaborator
    is not called.  The encoder writes to standard output, indents with a
    tab and does not escape HTML.  The result of [download] is the result
    of the encoder, and when that is an error the batch does with it what
    it does with the error of any failing target, a download error
    included ([Action_batch_failure]): it prints the two lines naming the
    target and the error, goes on with the other targets, and the verdict
    is failure. *)
Theorem download_json_mode (c : cli.Context) (videoURL : string)
    (env env1 : Env) (data : list (extractors.Data Payload)) :
  cli.Bool c "json" = true ->
  extractors_Extract videoURL (extractOptions c) env = (Ok data, env1) ->
  let s := json_Encode jsonEncoder data env1 in
  let r := download c videoURL env in
  r = (fst s, snd s,
       [Extract videoURL (extractOptions c); Encode jsonEncoder data]) /\
  downloaded (trace r) = [] /\
  json.w jsonEncoder = json.Stdout /\
  json.indentPrefix jsonEncoder = EmptyString /\
  json.indentValue jsonEncoder = TAB /\
  json.escapeHTML jsonEncoder = false /\
  (forall err rest,
     fst s = Some err ->
     let K := Action_batch c rest
                (fmt_Printf_error err
                   (fmt_Fprintf_Downloading_error videoURL (snd s))) in
     Action_batch c (videoURL :: rest) env =
     (Some (cli.Exit EmptyString 1), world K,
      [Extract videoURL (extractOptions c); Encode jsonEncoder data;
       Fprintf_Downloading_error videoURL; Printf_error err] ++ trace K)).
Proof.
  intros J H. cbv zeta.
  pose proof (download_extracted c videoURL env env1 data H) as D.
  rewrite J in D.
  split; [exact D|]. split; [now rewrite D|].
  repeat (split; [reflexivity|]).
  intros err rest E.
  assert (V : value (download c videoURL env) = Some err) by now rewrite D.
  rewrite (Action_batch_failure c videoURL rest env err V), D.
  reflexivity.
Qed.
End Run.

(* ================================================================== *)
(** * The theorems at work in the small world *)

(** C4.  The cookie file holds [token=xyz]; with [--cookie cookie.txt]
    [request.SetOptions] gets the cookie read from the file, and
    [extractors.Extract] gets the path. *)
Theorem Action_extract_cookie_is_the_path :
  let c := Demo.context ["u2"] false "cookie.txt" EmptyString in
  let r := Action (W := Demo.world) c true in
  map request.Cookie (request_options (trace r)) = ["token=xyz"] /\
  map extractors.Cookie (extract_options (trace r)) = ["cookie.txt"] /\
  extract_urls (trace r) = ["u2"] /\
  value r = None.
Proof. cbv zeta. repeat split. Qed.

(** The run of the specification's end-to-end scenario: the first target
    has a failing item, the second none; both are worked on, every valid
    item of the first is downloaded, one target is reported. *)
Lemma batch_processes_every_target_witness :
  let c := Demo.context ["u1"; "u2"] false EmptyString EmptyString in
  let r := Action_batch (W := Demo.world) c ["u1"; "u2"] true in
  extract_urls (trace r) = ["u1"; "u2"] /\
  value r = Some (cli.Exit EmptyString 1) /\
  exitStatus (value r) = 1 /\
  filter diagnostic (trace r)
  = [Fprintf_Downloading_error "u1"; Printf_error (errorString "no stream")] /\
  downloaded (trace r)
  = [Demo.item "a"; Demo.item "c"; Demo.item "d"; Demo.item "e"] /\
  exitStatus (value (Action_batch (W := Demo.world) c ["u2"; "u3"] true)) = 0.
Proof.
  cbv zeta.
  destruct (batch_processes_every_target (W := Demo.world)
              (Demo.context ["u1"; "u2"] false EmptyString EmptyString)
              ["u1"; "u2"] true) as (A & _ & _ & _ & _ & B & C).
  destruct (batch_processes_every_target (W := Demo.world)
              (Demo.context ["u1"; "u2"] false EmptyString EmptyString)
              ["u2"; "u3"] true) as (_ & _ & _ & _ & D & _).
  split; [exact A|].
  split; [exact (proj1 (B eq_refl))|].
  split; [exact (proj2 (B eq_refl))|].
  split; [exact C|].
  split; [reflexivity|].
  exact (proj2 (D eq_refl)).
Defined.

Lemma download_attempts_every_item_witness :
  let c := Demo.context ["u1"] false EmptyString EmptyString in
  let data :=
    [Demo.item "a"; Demo.broken "b" "no stream"; Demo.item "c"; Demo.item "d"] in
  cli.Bool c "json" = false /\
  attempts_every_item (W := Demo.world) c "u1" true data true /\
  downloaded (trace (download (W := Demo.world) c "u1" true))
  = [Demo.item "a"; Demo.item "c"; Demo.item "d"] /\
  value (download (W := Demo.world) c "u1" true)
  = Some (errorString "no stream").
Proof.
  cbv zeta. split; [reflexivity|].
  pose proof (download_attempts_every_item (W := Demo.world)
                (Demo.context ["u1"] false EmptyString EmptyString) "u1"
                true true
                [Demo.item "a"; Demo.broken "b" "no stream"; Demo.item "c";
                 Demo.item "d"]
                eq_refl eq_refl) as A.
  split; [exact A|].
  destruct A as (_ & T & _ & _ & V).
  split; [exact (f_equal downloaded T) | exact V].
Defined.

(** C2 as it is stated fails in json mode: extraction succeeds with one
    valid item, and the item is not attempted. *)
Lemma download_json_attempts_no_item :
  let c := Demo.context ["u2"] true EmptyString EmptyString in
  cli.Bool c "json" = true /\
  extractors_Extract (World := Demo.world) "u2" (extractOptions c) true
  = (Ok [Demo.item "e"], true) /\
  downloaded (trace (download (W := Demo.world) c "u2" true)) = [] /\
  ~ attempts_every_item (W := Demo.world) c "u2" true [Demo.item "e"] true.
Proof.
  cbv zeta. repeat split.
  unfold attempts_every_item. intros (_ & T & _). discriminate T.
Qed.

Lemma download_extraction_failure_witness :
  let c := Demo.context ["bad"] false EmptyString EmptyString in
  download (W := Demo.world) c "bad" true
  = (Some (errorString "unsupported URL"), true,
     [Extract "bad" (extractOptions c)]) /\
  downloaded (trace (download (W := Demo.world) c "bad" true)) = [].
Proof.
  exact (download_extraction_failure (W := Demo.world)
           (Demo.context ["bad"] false EmptyString EmptyString) "bad"
           true true (errorString "unsupported URL") eq_refl).
Defined.

Lemma Action_cookie_resolved_witness :
  let c := Demo.context ["u2"] false "cookie.txt" EmptyString in
  let c' := Demo.context ["u2"] false "locked.txt" EmptyString in
  let c'' := Demo.context ["u2"] false "token=xyz" EmptyString in
  Action_cookie (W := Demo.world) c true
  = (Ok "token=xyz", true, [Stat "cookie.txt"; ReadFile "cookie.txt"]) /\
  Action_cookie (W := Demo.world) c'' true
  = (Ok "token=xyz", true, [Stat "token=xyz"]) /\
  value (Action (W := Demo.world) c' true)
  = Some (errorString "read: permission denied") /\
  filter processing (trace (Action (W := Demo.world) c' true)) = [].
Proof.
  cbv zeta.
  destruct (Action_cookie_resolved (W := Demo.world)
              (Demo.context ["u2"] false "cookie.txt" EmptyString) true)
    as (_ & A & _).
  destruct (Action_cookie_resolved (W := Demo.world)
              (Demo.context ["u2"] false "token=xyz" EmptyString) true)
    as (_ & _ & _ & _ & _ & B & _).
  destruct (Action_cookie_resolved (W := Demo.world)
              (Demo.context ["u2"] false "locked.txt" EmptyString) true)
    as (_ & _ & _ & _ & _ & _ & C).
  split; [exact (A ltac:(discriminate) true Demo.cookie_file true
                   eq_refl eq_refl)|].
  split; [exact (B ltac:(discriminate)
                   (errorString "stat: no such file or directory") true
                   eq_refl)|].
  exact (proj2 (C ltac:(discriminate) true
                  (errorString "read: permission denied") true
                  eq_refl eq_refl)
           true ["u2"] eq_refl eq_refl ltac:(discriminate)).
Defined.

Lemma Action_empty_worklist_witness :
  let c := Demo.context [] false EmptyString "empty.txt" in
  let c' := Demo.context [] false EmptyString EmptyString in
  value (Action_worklist (W := Demo.world) c true) = Ok [] /\
  Action (W := Demo.world) c true
  = (Some (errors.New "too few arguments"), true,
     [Open "empty.txt"; ParseInputFile [] EmptyString 1 0; Close []]) /\
  value (Action_worklist (W := Demo.world) c' true) = Ok [] /\
  Action (W := Demo.world) c' true
  = (Some (errors.New "too few arguments"), true, []).
Proof.
  cbv zeta.
  destruct (Action_empty_worklist (W := Demo.world)
              (Demo.context [] false EmptyString "empty.txt") true eq_refl)
    as (A & _).
  destruct (Action_empty_worklist (W := Demo.world)
              (Demo.context [] false EmptyString EmptyString) true eq_refl)
    as (B & _).
  split; [reflexivity|].
  split; [exact (f_equal (fun v => (v, true, _)) A)|].
  split; [reflexivity|].
  exact (f_equal (fun v => (v, true, _)) B).
Defined.

Lemma Action_worklist_order_witness :
  let c := Demo.context ["u1"; "u3"; "u1"] false EmptyString "urls.txt" in
  let c' := Demo.context ["u1"] false EmptyString "missing.txt" in
  value (Action_worklist (W := Demo.world) c true)
  = Ok ["u1"; "u3"; "u1"; "u2"; "u1"; "u2"] /\
  extract_urls (trace (Action (W := Demo.world) c true))
  = ["u1"; "u3"; "u1"; "u2"; "u1"; "u2"] /\
  value (Action (W := Demo.world) c' true)
  = Some (errorString "open: no such file or directory") /\
  filter processing (trace (Action (W := Demo.world) c' true)) = [].
Proof.
  cbv zeta.
  destruct (Action_worklist_order (W := Demo.world)
              (Demo.context ["u1"; "u3"; "u1"] false EmptyString "urls.txt")
              true) as (_ & A & _ & B).
  destruct (Action_worklist_order (W := Demo.world)
              (Demo.context ["u1"] false EmptyString "missing.txt")
              true) as (_ & _ & C & _).
  split; [exact (A ltac:(discriminate) ["u2"; "u1"; "u2"] true eq_refl)|].
  split; [exact (B ["u1"; "u3"; "u1"; "u2"; "u1"; "u2"] EmptyString
                   eq_refl ltac:(discriminate) eq_refl)|].
  exact (C ltac:(discriminate)
           (errorString "open: no such file or directory") true eq_refl).
Defined.

Lemma download_json_mode_witness :
  let c := Demo.context ["u1"; "u2"] true EmptyString EmptyString in
  let data :=
    [Demo.item "a"; Demo.broken "b" "no stream"; Demo.item "c"; Demo.item "d"] in
  let err := errorString "write /dev/stdout: file already closed" in
  download (W := Demo.world) c "u1" true
  = (None, true, [Extract "u1" (extractOptions c); Encode jsonEncoder data]) /\
  download (W := Demo.world) c "u1" false
  = (Some err, false,
     [Extract "u1" (extractOptions c); Encode jsonEncoder data]) /\
  value (Action_batch (W := Demo.world) c ["u1"; "u2"] false)
  = Some (cli.Exit EmptyString 1).
Proof.
  cbv zeta.
  destruct (download_json_mode (W := Demo.world)
              (Demo.context ["u1"; "u2"] true EmptyString EmptyString) "u1"
              true true
              [Demo.item "a"; Demo.broken "b" "no stream"; Demo.item "c";
               Demo.item "d"] eq_refl eq_refl) as (A & _).
  destruct (download_json_mode (W := Demo.world)
              (Demo.context ["u1"; "u2"] true EmptyString EmptyString) "u1"
              false false
              [Demo.item "a"; Demo.broken "b" "no stream"; Demo.item "c";
               Demo.item "d"] eq_refl eq_refl) as (B & _ & _ & _ & _ & _ & C).
  split; [exact A|]. split; [exact B|].
  exact (f_equal value
           (C (errorString "write /dev/stdout: file already closed")
              ["u2"] eq_refl)).
Defined.

Lemma download_no_items_witness :
  let c := Demo.context ["u3"] false EmptyString EmptyString in
  let c' := Demo.context ["u3"] true EmptyString EmptyString in
  empty_extraction_succeeds (W := Demo.world) c "u3" true /\
  value (download (W := Demo.world) c' "u3" true) = None.
Proof.
  cbv zeta.
  destruct (download_no_items (W := Demo.world)
              (Demo.context ["u3"] false EmptyString EmptyString) "u3"
              true true eq_refl) as (A & _).
  destruct (download_no_items (W := Demo.world)
              (Demo.context ["u3"] true EmptyString EmptyString) "u3"
              true true eq_refl) as (_ & B).
  split; [exact (A eq_refl) | exact (proj2 (B eq_refl))].
Defined.

(** C9 as it is stated fails in json mode when standard output is closed:
    extraction succeeds without items, and [download] returns the error of
    the encoder. *)
Lemma download_json_no_items_fails :
  let c := Demo.context ["u3"] true EmptyString EmptyString in
  extractors_Extract (World := Demo.world) "u3" (extractOptions c) false
  = (Ok [], false) /\
  value (download (W := Demo.world) c "u3" false)
  = Some (errorString "write /dev/stdout: file already closed") /\
  ~ empty_extraction_succeeds (W := Demo.world) c "u3" false.
Proof.
  cbv zeta. repeat split.
  unfold empty_extraction_succeeds. intros (V & _). discriminate V.
Qed.

Lemma download_json_ignores_item_errors_witness :
  let c := Demo.context ["u4"] true EmptyString EmptyString in
  let c' := Demo.context ["u4"] false EmptyString EmptyString in
  let data := [Demo.broken "f" "no stream"; Demo.broken "g" "gone"] in
  download (W := Demo.world) c "u4" true
  = (None, true, [Extract "u4" (extractOptions c); Encode jsonEncoder data]) /\
  value (download (W := Demo.world) c' "u4" true)
  = Some (errorString "no stream").
Proof.
  cbv zeta.
  destruct (download_json_ignores_item_errors (W := Demo.world)
              (Demo.context ["u4"] true EmptyString EmptyString) "u4"
              true true true
              [Demo.broken "f" "no stream"; Demo.broken "g" "gone"]
              eq_refl eq_refl eq_refl) as (A & B).
  split; [exact A|].
  exact (B (Demo.context ["u4"] false EmptyString EmptyString) true true
           (Demo.broken "f" "no stream") (errorString "no stream")
           [Demo.broken "g" "gone"] eq_refl eq_refl eq_refl eq_refl).
Defined.

(* ================================================================== *)
(** * More about the code: the flags *)

Section FlagsRead.
Context {Env File Payload : Type} `{W : World Env File Payload}.

Lemma bind_ext {A B : Type} (m m' : M Env (event File Payload) A)
    (k k' : A -> M Env (event File Payload) B) (env : Env) :
  m env = m' env ->
  (forall a env1, k a env1 = k' a env1) ->
  bind m k env = bind m' k' env.
Proof.
  intros Hm Hk. unfold bind. rewrite Hm.
  destruct (m' env) as [[a env1] l1]. now rewrite Hk.
Qed.

(** What the code looks up under the names of the table. *)
Lemma same_flags_lookups (c c' : cli.Context) :
  same_flags c c' ->
  cli.Args c = cli.Args c' /\
  extractOptions c = extractOptions c' /\
  downloaderOptions c = downloaderOptions c' /\
  (forall cookie, requestOptions c cookie = requestOptions c' cookie) /\
  cli.Bool c "json" = cli.Bool c' "json" /\
  cli.Bool c "debug" = cli.Bool c' "debug" /\
  cli.String c "cookie" = cli.String c' "cookie" /\
  cli.String c "file" = cli.String c' "file" /\
  cli.String c "items" = cli.String c' "items" /\
  cli.Uint c "start" = cli.Uint c' "start" /\
  cli.Uint c "end" = cli.Uint c' "end".
Proof.
  intros [A F]. unfold Flags in F.
  repeat match type of F with
         | Forall _ (_ :: _) =>
             let H := fresh "H" in
             apply Forall_cons_iff in F; destruct F as [H F];
             cbn [same_flag] in H
         end.
  clear F.
  unfold extractOptions, downloaderOptions, requestOptions.
  repeat split; try intros cookie; congruence.
Qed.

Lemma download_same_flags (c c' : cli.Context) (videoURL : string) env :
  same_flags c c' -> download c videoURL env = download c' videoURL env.
Proof.
  intros S.
  destruct (same_flags_lookups c c' S) as (_ & E & D & _ & J & _).
  unfold download. now rewrite E, D, J.
Qed.

Lemma Action_loop_same_flags (c c' : cli.Context) (args : list string) :
  same_flags c c' ->
  forall isErr env, Action_loop c args isErr env = Action_loop c' args isErr env.
Proof.
  intros S. induction args as [|videoURL args IH]; intros isErr env;
    [reflexivity|].
  cbn [Action_loop]. unfold bind.
  rewrite (download_same_flags c c' videoURL env S).
  destruct (download c' videoURL env) as [[[err|] env1] l1].
  - destruct (report videoURL err env1) as [[u env2] l2]. now rewrite IH.
  - now rewrite IH.
Qed.

Lemma Action_run_same_flags (c c' : cli.Context) (args : list string) env :
  same_flags c c' -> Action_run c args env = Action_run c' args env.
Proof.
  intros S.
  destruct (same_flags_lookups c c' S) as (_ & _ & _ & R & _ & _ & K & _).
  assert (Ck : Action_cookie c env = Action_cookie c' env)
    by (unfold Action_cookie; now rewrite K).
  unfold Action_run, Action_batch, bind.
  destruct (List.length args <? 1)%nat; [reflexivity|].
  rewrite Ck.
  destruct (Action_cookie c' env) as [[[k|e] env1] l1]; [|reflexivity].
  rewrite R.
  destruct (exec _ _ env1) as [[u env2] l2].
  now rewrite (Action_loop_same_flags c c' args S).
Qed.

(** X1.  A run depends on the command line through the positional
    arguments and the flags of the table only, each looked up under its
    name and at its type: two command lines that agree on them give the
    same run (when the version printer, which gets the whole context, does
    not tell them apart). *)
Theorem Action_reads_declared_flags (c c' : cli.Context) (env : Env) :
  same_flags c c' ->
  (forall env0, cli_VersionPrinter c env0 = cli_VersionPrinter c' env0) ->
  Action c env = Action c' env.
Proof.
  intros S V.
  destruct (same_flags_lookups c c' S)
    as (A & _ & _ & _ & _ & D & _ & F & I & B & E).
  unfold Action. rewrite A, F, I, B, E.
  apply bind_ext.
  - unfold Action_debug, exec. rewrite D.
    destruct (cli.Bool c' "debug"); [now rewrite V | reflexivity].
  - intros _ env1. destruct (negb _).
    + apply bind_ext; [reflexivity|].
      intros [f|err] env2; [|reflexivity].
      unfold defer. apply bind_ext; [|reflexivity].
      apply bind_ext; [reflexivity|].
      intros fileItems env3. now apply Action_run_same_flags.
    + now apply Action_run_same_flags.
Qed.

(** X2.  No two flags of the table answer to the same name: the names and
    aliases, all together, are pairwise different (they are told apart by
    case: [f] and [F], [c] and [C], [o] and [O]). *)
Theorem Flags_names_distinct : NoDup (flat_map Names Flags).
Proof.
  assert (D : forall l : list string,
             (fix nodup (l : list string) : bool :=
                match l with
                | [] => true
                | x :: l' =>
                    negb (existsb (String.eqb x) l') && nodup l'
                end) l = true -> NoDup l).
  { induction l as [|x l IH]; intros H; [constructor|].
    apply andb_true_iff in H. destruct H as [H1 H2].
    constructor; [|now apply IH].
    intros Hin. apply negb_true_iff in H1.
    assert (E : existsb (String.eqb x) l = true)
      by (apply existsb_exists; exists x; split;
          [exact Hin | apply String.eqb_refl]).
    congruence. }
  apply D. vm_compute. reflexivity.
Qed.
End FlagsRead.

(* ================================================================== *)
(** * More about the code: the phases of a run *)

Section Phases.
Context {Env File Payload : Type} `{W : World Env File Payload}.

Abbreviation Go := (M Env (event File Payload)).
Abbreviation Event := (event File Payload).

Lemma flat_map_none {B : Type} (P : Event -> bool) (g : Event -> list B)
    (l : list Event) :
  Forall (fun ev => P ev = true) l ->
  (forall ev, P ev = true -> g ev = []) ->
  flat_map g l = [].
Proof.
  intros F G. induction F as [|ev l Hev _ IH]; [reflexivity|].
  cbn [flat_map]. now rewrite (G ev Hev), IH.
Qed.

Lemma filter_none (P Q : Event -> bool) (l : list Event) :
  Forall (fun ev => P ev = true) l ->
  (forall ev, P ev = true -> Q ev = false) ->
  filter Q l = [].
Proof.
  intros F G. induction F as [|ev l Hev _ IH]; [reflexivity|].
  cbn [filter]. now rewrite (G ev Hev), IH.
Qed.

Lemma filter_all (P Q : Event -> bool) (l : list Event) :
  Forall (fun ev => P ev = true) l ->
  (forall ev, P ev = true -> Q ev = true) ->
  filter Q l = l.
Proof.
  intros F G. induction F as [|ev l Hev _ IH]; [reflexivity|].
  cbn [filter]. now rewrite (G ev Hev), IH.
Qed.

(** The three ways through the start of [Action]. *)
Lemma Action_unopened (c : cli.Context) (env : Env) :
  cli.String c "file" = EmptyString ->
  let D := Action_debug c env in
  let R := Action_run c (cli.Args c) (world D) in
  Action c env = (value R, world R, trace D ++ trace R).
Proof.
  intros E. cbv zeta. unfold Action.
  rewrite (run_eta (bind _ _ env)), value_bind, world_bind, trace_bind, E.
  reflexivity.
Qed.

Lemma Action_open_failed (c : cli.Context) (env env1 : Env) (err : error) :
  cli.String c "file" <> EmptyString ->
  let D := Action_debug c env in
  os_Open (cli.String c "file") (world D) = (Failed err, env1) ->
  Action c env = (Some err, env1, trace D ++ [Open (cli.String c "file")]).
Proof.
  intros NE D O. unfold Action.
  rewrite (run_eta (bind _ _ env)), value_bind, world_bind, trace_bind.
  apply String.eqb_neq in NE. rewrite NE. cbn [negb].
  fold D. rewrite (run_bind _ _ _ _ _ _ (run_call _ _ _ _ _ O)). reflexivity.
Qed.

Lemma Action_opened (c : cli.Context) (env env1 : Env) (f : File) :
  cli.String c "file" <> EmptyString ->
  let D := Action_debug c env in
  os_Open (cli.String c "file") (world D) = (Ok f, env1) ->
  let items := cli.String c "items" in
  let itemStart := int (cli.Uint c "start") in
  let itemEnd := int (cli.Uint c "end") in
  let parsed := utils_ParseInputFile f items itemStart itemEnd env1 in
  let R := Action_run c (cli.Args c ++ fst parsed) (snd parsed) in
  Action c env =
  (value R, os_File_Close f (world R),
   trace D
   ++ [Open (cli.String c "file"); ParseInputFile f items itemStart itemEnd]
   ++ trace R ++ [Close f]).
Proof.
  intros NE D O. cbv zeta. unfold Action.
  rewrite (run_eta (bind _ _ env)), value_bind, world_bind, trace_bind.
  apply String.eqb_neq in NE. rewrite NE. cbn [negb].
  fold D. rewrite (run_bind _ _ _ _ _ _ (run_call _ _ _ _ _ O)).
  cbn [value world trace fst snd]. unfold defer.
  rewrite !value_bind, !trace_bind, !world_bind.
  rewrite value_call, world_call, trace_call.
  cbn. rewrite ?app_nil_r, <- ?app_assoc. reflexivity.
Qed.

Lemma Action_debug_opening (c : cli.Context) (env : Env) :
  Forall (fun ev => opening ev = true) (trace (Action_debug c env)).
Proof.
  unfold Action_debug. destruct (cli.Bool c "debug"); repeat constructor.
Qed.

Lemma Action_cookie_looking (c : cli.Context) (env : Env) :
  let k := cli.String c "cookie" in
  let t := trace (Action_cookie c env) in
  (t = [] \/ t = [Stat k] \/ t = [Stat k; ReadFile k]) /\
  (k = EmptyString -> t = []).
Proof.
  cbv zeta.
  destruct (string_dec (cli.String c "cookie") EmptyString) as [E|NE].
  - destruct (Action_cookie_cases c env) as (C1 & _).
    rewrite (C1 E). cbn. auto.
  - split; [|contradiction].
    destruct (os_Stat (cli.String c "cookie") env) as [[fileErr|] env1] eqn:S.
    + destruct (Action_cookie_cases c env) as (_ & C2 & _).
      rewrite (C2 NE _ _ S). cbn. auto.
    + destruct (os_ReadFile (cli.String c "cookie") env1) as [r env2] eqn:R.
      destruct (Action_cookie_cases c env) as (_ & _ & C3).
      rewrite (C3 NE _ _ _ S R). cbn. auto.
Qed.

(** What [download] calls, it calls with the options built from the flags,
    and it calls the encoder or the downloader according to the mode. *)
Lemma download_configured (c : cli.Context) (videoURL : string) env :
  Forall (configured c) (trace (download c videoURL env)).
Proof.
  destruct (extractors_Extract videoURL (extractOptions c) env)
    as [[data|err] env1] eqn:H.
  - rewrite (download_extracted c videoURL env env1 data H).
    destruct (cli.Bool c "json") eqn:J; cbn [trace snd].
    + repeat constructor. exact J.
    + constructor; [reflexivity|]. rewrite mapM_attempt_trace.
      apply Forall_forall. intros ev Hin. apply in_map_iff in Hin.
      destruct Hin as [item [<- _]]. split; [reflexivity | exact J].
  - rewrite (download_not_extracted c videoURL env env1 err H).
    repeat constructor.
Qed.

(** The events of a batch: work on the targets, configured by the flags,
    and the lines of the failing ones. *)
Lemma batch_events (c : cli.Context) (args : list string) :
  forall env,
    Forall (fun ev => batching ev = true /\ configured c ev)
           (trace (mapM (process c) args env)).
Proof.
  induction args as [|videoURL args IH]; intros env; [constructor|].
  rewrite mapM_cons. cbn [trace snd].
  destruct (run_process c videoURL env) as (_ & -> & _).
  apply Forall_app. split; [|apply IH].
  apply Forall_app. split.
  - pose proof (download_trace_processing c videoURL env) as P.
    pose proof (download_configured c videoURL env) as C.
    rewrite Forall_forall in *. intros ev Hin. split; [|now apply C].
    unfold batching. now rewrite (P ev Hin).
  - unfold diagnosis. cbn [fst snd].
    destruct (value (download c videoURL env)); repeat constructor.
Qed.

(** The phases of a run: the banner and the input file, the look-up of the
    cookie, the options of the requests, the batch, and closing the input
    file; a run that stops early has the later phases empty. *)
Lemma Action_phases (c : cli.Context) (env : Env) :
  let wl := Action_worklist c env in
  let ck := Action_cookie c (world wl) in
  exists pre look set batch post,
    trace (Action c env) = pre ++ look ++ set ++ batch ++ post /\
    Forall (fun ev => opening ev = true) pre /\
    (look = [] \/ look = trace ck) /\
    ((set = [] /\ batch = []) \/
     exists args k,
       value wl = Ok args /\ args <> [] /\ value ck = Ok k /\
       look = trace ck /\
       set = [SetOptions (requestOptions c k)] /\
       batch = trace (Action_batch c args
                        (request_SetOptions (requestOptions c k) (world ck)))) /\
    (post = [] \/ exists f, post = [Close f]).
Proof.
  cbv zeta.
  assert (R : forall args env1,
             exists look set batch,
               trace (Action_run c args env1) = look ++ set ++ batch /\
               (look = [] \/ look = trace (Action_cookie c env1)) /\
               ((set = [] /\ batch = []) \/
                exists k,
                  args <> [] /\ value (Action_cookie c env1) = Ok k /\
                  look = trace (Action_cookie c env1) /\
                  set = [SetOptions (requestOptions c k)] /\
                  batch = trace (Action_batch c args
                                   (request_SetOptions (requestOptions c k)
                                      (world (Action_cookie c env1)))))).
  { intros args env1.
    destruct (Action_run_cases c args env1) as (R1 & R2 & R3).
    cbv zeta in *.
    destruct args as [|a args].
    - exists [], [], []. rewrite R1 by reflexivity. cbn. auto.
    - destruct (value (Action_cookie c env1)) as [k|err] eqn:K.
      + exists (trace (Action_cookie c env1)),
          [SetOptions (requestOptions c k)],
          (trace (Action_batch c (a :: args)
                    (request_SetOptions (requestOptions c k)
                       (world (Action_cookie c env1))))).
        rewrite (R3 ltac:(discriminate) k eq_refl). cbn [trace snd].
        split; [reflexivity|]. split; [auto|]. right. exists k.
        repeat split. discriminate.
      + exists (trace (Action_cookie c env1)), [], [].
        rewrite (R2 ltac:(discriminate) err eq_refl). cbn [trace snd].
        rewrite !app_nil_r. auto. }
  pose proof (Action_debug_opening c env) as D.
  destruct (string_dec (cli.String c "file") EmptyString) as [E|NE].
  - destruct (Action_worklist_cases c env) as (C1 & _). cbv zeta in C1.
    rewrite (C1 E), (Action_unopened c env E). cbn [value world trace fst snd].
    destruct (R (cli.Args c) (world (Action_debug c env)))
      as (look & set & batch & T & L & S).
    exists (trace (Action_debug c env)), look, set, batch, [].
    rewrite T, !app_nil_r. split; [reflexivity|]. split; [exact D|].
    split; [exact L|]. split; [|auto].
    destruct S as [S|(k & S1 & S2 & S3 & S4 & S5)]; [auto|].
    right. exists (cli.Args c), k. auto 10.
  - destruct (os_Open (cli.String c "file") (world (Action_debug c env)))
      as [[f|err] env1] eqn:O;
      destruct (Action_worklist_cases c env) as (_ & C2 & C3);
      cbv zeta in C2, C3.
    + rewrite (C3 NE f env1 O), (Action_opened c env env1 f NE O).
      cbn [value world trace fst snd].
      set (parsed := utils_ParseInputFile f _ _ _ env1).
      destruct (R (cli.Args c ++ fst parsed) (snd parsed))
        as (look & set & batch & T & L & S).
      exists (trace (Action_debug c env)
              ++ [Open (cli.String c "file");
                  ParseInputFile f (cli.String c "items")
                    (int (cli.Uint c "start")) (int (cli.Uint c "end"))]),
        look, set, batch, [Close f].
      rewrite T, <- !app_assoc. split; [reflexivity|].
      split; [apply Forall_app; split; [exact D | repeat constructor]|].
      split; [exact L|]. split; [|eauto].
      destruct S as [S|(k & S1 & S2 & S3 & S4 & S5)]; [auto|].
      right. exists (cli.Args c ++ fst parsed), k. auto 10.
    + rewrite (C2 NE err env1 O), (Action_open_failed c env env1 err NE O).
      cbn [value world trace fst snd].
      exists (trace (Action_debug c env) ++ [Open (cli.String c "file")]),
        [], [], [], [].
      rewrite !app_nil_r. split; [reflexivity|].
      split; [apply Forall_app; split; [exact D | repeat constructor]|].
      auto.
Qed.
End Phases.

(* ================================================================== *)
(** * More about the code: what every run does and does not do *)

Section Always.
Context {Env File Payload : Type} `{W : World Env File Payload}.

Abbreviation Go := (M Env (event File Payload)).
Abbreviation Event := (event File Payload).

Lemma Action_cookie_trace_looking (c : cli.Context) (env : Env) :
  Forall (fun ev : Event => looking ev = true) (trace (Action_cookie c env)).
Proof.
  destruct (Action_cookie_looking c env) as [[->|[->| ->]] _];
    repeat constructor.
Qed.

(** What is done with the work list leaves the input file alone. *)
Lemma Action_run_no_bookkeeping (c : cli.Context) (args : list string) env :
  Forall (fun ev : Event => bookkeeping ev = false)
         (trace (Action_run c args env)).
Proof.
  destruct (Action_run_cases c args env) as (R1 & R2 & R3). cbv zeta in *.
  assert (K : Forall (fun ev : Event => bookkeeping ev = false)
                     (trace (Action_cookie c env))).
  { eapply Forall_impl; [|apply Action_cookie_trace_looking].
    intros ev; destruct ev; try discriminate; reflexivity. }
  destruct args as [|a args]; [rewrite R1 by reflexivity; constructor|].
  destruct (value (Action_cookie c env)) as [k|err] eqn:V.
  - rewrite (R3 ltac:(discriminate) k eq_refl). cbn [trace snd].
    apply Forall_app. split; [exact K|]. constructor; [reflexivity|].
    rewrite Action_batch_run. cbn [trace snd].
    eapply Forall_impl; [|apply batch_events].
    intros ev [B _]. unfold batching in B.
    destruct ev; try discriminate; reflexivity.
  - rewrite (R2 ltac:(discriminate) err eq_refl). exact K.
Qed.

(** X3.  An input file that was opened is closed once, and closing it is
    the last thing the run does, whatever the run returns; a run without an
    input file, or whose input file cannot be opened, closes nothing. *)
Theorem Action_closes_input_file (c : cli.Context) (env : Env) :
  let D := Action_debug c env in
  let file := cli.String c "file" in
  (file <> EmptyString ->
   forall f env1,
     os_Open file (world D) = (Ok f, env1) ->
     exists l, trace (Action c env) = l ++ [Close f] /\ closed l = []) /\
  (file <> EmptyString ->
   forall err env1,
     os_Open file (world D) = (Failed err, env1) ->
     closed (trace (Action c env)) = []) /\
  (file = EmptyString -> closed (trace (Action c env)) = []).
Proof.
  cbv zeta.
  assert (D : closed (trace (Action_debug c env)) = []).
  { apply (flat_map_none opening); [apply Action_debug_opening|].
    intros ev; destruct ev; try discriminate; reflexivity. }
  assert (R : forall args env1, closed (trace (Action_run c args env1)) = []).
  { intros args env1.
    apply (flat_map_none (fun ev => negb (bookkeeping ev))).
    - eapply Forall_impl; [|apply Action_run_no_bookkeeping].
      intros ev E. cbv beta in E. now rewrite E.
    - intros ev; destruct ev; try discriminate; reflexivity. }
  split; [|split].
  - intros NE f env1 O. rewrite (Action_opened c env env1 f NE O).
    cbn [trace snd]. rewrite !app_assoc. eexists. split; [reflexivity|].
    unfold closed in *. rewrite !flat_map_app, D, R. reflexivity.
  - intros NE err env1 O. rewrite (Action_open_failed c env env1 err NE O).
    cbn [trace snd]. unfold closed in *. rewrite flat_map_app, D. reflexivity.
  - intros E. rewrite (Action_unopened c env E). cbn [trace snd].
    unfold closed in *. rewrite flat_map_app, D, R. reflexivity.
Qed.

Lemma batch_views (c : cli.Context) (args : list string) (env : Env) :
  let t := trace (Action_batch c args env) in
  request_options t = [] /\ filter looking t = [] /\ closed t = [] /\
  Forall (configured c) t.
Proof.
  cbv zeta. rewrite Action_batch_run. cbn [trace snd].
  pose proof (batch_events c args env) as B.
  assert (B1 : Forall (fun ev : Event => batching ev = true)
                      (trace (mapM (process c) args env)))
    by (eapply Forall_impl; [|exact B]; now intros ev [? _]).
  split; [|split; [|split]].
  - apply (flat_map_none batching); [exact B1|].
    intros ev; destruct ev; try discriminate; reflexivity.
  - apply (filter_none batching); [exact B1|].
    intros ev; destruct ev; try discriminate; reflexivity.
  - apply (flat_map_none batching); [exact B1|].
    intros ev; destruct ev; try discriminate; reflexivity.
  - eapply Forall_impl; [|exact B]. now intros ev [_ ?].
Qed.

Lemma opening_views (l : list Event) :
  Forall (fun ev => opening ev = true) l ->
  request_options l = [] /\ filter processing l = [] /\
  filter looking l = [] /\ filter diagnostic l = [] /\
  forall c, Forall (configured c) l.
Proof.
  intros F. repeat split.
  - apply (flat_map_none opening); [exact F|].
    intros ev; destruct ev; try discriminate; reflexivity.
  - apply (filter_none opening); [exact F|].
    intros ev; destruct ev; try discriminate; reflexivity.
  - apply (filter_none opening); [exact F|].
    intros ev; destruct ev; try discriminate; reflexivity.
  - apply (filter_none opening); [exact F|].
    intros ev; destruct ev; try discriminate; reflexivity.
  - intros c. eapply Forall_impl; [|exact F].
    intros ev; destruct ev; try discriminate; constructor.
Qed.

Lemma looking_views (l : list Event) :
  Forall (fun ev => looking ev = true) l ->
  request_options l = [] /\ filter processing l = [] /\
  filter looking l = l /\ filter diagnostic l = [] /\
  forall c, Forall (configured c) l.
Proof.
  intros F. repeat split.
  - apply (flat_map_none looking); [exact F|].
    intros ev; destruct ev; try discriminate; reflexivity.
  - apply (filter_none looking); [exact F|].
    intros ev; destruct ev; try discriminate; reflexivity.
  - apply (filter_all looking); [exact F|]. auto.
  - apply (filter_none looking); [exact F|].
    intros ev; destruct ev; try discriminate; reflexivity.
  - intros c. eapply Forall_impl; [|exact F].
    intros ev; destruct ev; try discriminate; constructor.
Qed.

Lemma look_looking (c : cli.Context) (env : Env) (look : list Event) :
  look = [] \/ look = trace (Action_cookie c env) ->
  Forall (fun ev => looking ev = true) look.
Proof.
  intros [->| ->]; [constructor | apply Action_cookie_trace_looking].
Qed.

(** X4.  [request.SetOptions] is called at most once in a run, and before
    any work on a target: either no target is worked on and the options are
    never set, or they are set exactly once, with the resolved cookie, and
    everything done on the targets comes after that call. *)
Theorem Action_sets_options_once (c : cli.Context) (env : Env) :
  let t := trace (Action c env) in
  (request_options t = [] /\ filter processing t = []) \/
  (exists pre k post,
      t = pre ++ SetOptions (requestOptions c k) :: post /\
      value (Action_cookie c (world (Action_worklist c env))) = Ok k /\
      request_options pre = [] /\ filter processing pre = [] /\
      request_options post = []).
Proof.
  cbv zeta.
  destruct (Action_phases c env)
    as (pre & look & set & batch & post & T & P & L & S & C).
  cbv zeta in *. rewrite T.
  destruct (opening_views pre P) as (P1 & P2 & _).
  destruct (looking_views look (look_looking c _ look L)) as (L1 & L2 & _).
  assert (C1 : request_options post = [] /\ filter processing post = [])
    by (destruct C as [->|[f ->]]; split; reflexivity).
  destruct C1 as [C1 C2].
  destruct S as [[-> ->]|(args & k & V & NE & K & _ & -> & ->)].
  - left. unfold request_options in *.
    rewrite !filter_app, !flat_map_app, P1, P2, L1, L2, C1, C2.
    split; reflexivity.
  - right.
    set (B := Action_batch c args
                (request_SetOptions (requestOptions c k)
                   (world (Action_cookie c (world (Action_worklist c env)))))).
    exists (pre ++ look), k, (trace B ++ post).
    destruct (batch_views c args
                (request_SetOptions (requestOptions c k)
                   (world (Action_cookie c (world (Action_worklist c env))))))
      as (B1 & _). fold B in B1.
    unfold request_options in *.
    rewrite !filter_app, !flat_map_app, P1, P2, L1, L2, B1, C1.
    rewrite <- !app_assoc. repeat split. exact K.
Qed.

(** X5.  The file system is asked about the cookie at most once in a run,
    however many targets there are: [os.Stat] is called at most once, then
    [os.ReadFile] at most once, both on the value of the [cookie] flag; and
    not at all when the flag is empty. *)
Theorem Action_looks_up_cookie_once (c : cli.Context) (env : Env) :
  let k := cli.String c "cookie" in
  let t := filter looking (trace (Action c env)) in
  (t = [] \/ t = [Stat k] \/ t = [Stat k; ReadFile k]) /\
  (k = EmptyString -> t = []).
Proof.
  cbv zeta.
  destruct (Action_phases c env)
    as (pre & look & set & batch & post & T & P & L & S & C).
  cbv zeta in *. rewrite T.
  destruct (opening_views pre P) as (_ & _ & P3 & _).
  destruct (looking_views look (look_looking c _ look L)) as (_ & _ & L3 & _).
  assert (C3 : filter looking post = [])
    by (destruct C as [->|[f ->]]; reflexivity).
  assert (S3 : filter looking set = [] /\ filter looking batch = []).
  { destruct S as [[-> ->]|(args & k & _ & _ & _ & _ & -> & ->)];
      [split; reflexivity|].
    split; [reflexivity | apply (batch_views c args)]. }
  destruct S3 as [S3 S4].
  rewrite !filter_app. rewrite P3, L3, C3, S3, S4.
  cbn [app]. rewrite !app_nil_r.
  destruct (Action_cookie_looking c (world (Action_worklist c env)))
    as [K1 K2]. cbv zeta in K1, K2.
  destruct L as [->| ->]; auto.
Qed.



Lemma mapM_app {A B : Type} (f : A -> Go B) (l1 l2 : list A) :
  forall env,
    mapM f (l1 ++ l2) env =
    (value (mapM f l1 env) ++ value (mapM f l2 (world (mapM f l1 env))),
     world (mapM f l2 (world (mapM f l1 env))),
     trace (mapM f l1 env) ++ trace (mapM f l2 (world (mapM f l1 env)))).
Proof.
  induction l1 as [|a l1 IH]; intros env.
  - cbn. apply run_eta.
  - cbn [app]. rewrite !mapM_cons, IH. cbn [value world trace fst snd].
    now rewrite app_assoc.
Qed.

(** X7.  The batch of a list made of two lists is the batch of the first
    followed by the batch of the second, run where the first one left the
    world, and it fails when one of the two fails. *)
Theorem Action_batch_app (c : cli.Context) (args1 args2 : list string)
    (env : Env) :
  let B1 := Action_batch c args1 env in
  let B2 := Action_batch c args2 (world B1) in
  Action_batch c (args1 ++ args2) env =
  (both (value B1) (value B2), world B2, trace B1 ++ trace B2).
Proof.
  cbv zeta. rewrite !Action_batch_run. cbv zeta.
  cbn [value world trace fst snd]. rewrite mapM_app.
  cbn [value world trace fst snd]. rewrite existsb_app.
  destruct (existsb failed _); destruct (existsb failed _); reflexivity.
Qed.

(** X9.  In every run each call of a collaborator that takes options gets
    the options built from the flags, the same for every target and item;
    and the mode decides once for the whole run: with [--json] the download
    collaborator is never called, without it the encoder never is. *)
Theorem Action_collaborators_configured (c : cli.Context) (env : Env) :
  let t := trace (Action c env) in
  Forall (configured c) t /\
  (cli.Bool c "json" = true -> downloaders t = []) /\
  (cli.Bool c "json" = false -> encoders t = []).
Proof.
  cbv zeta.
  assert (F : Forall (configured c) (trace (Action c env))).
  { destruct (Action_phases c env)
      as (pre & look & set & batch & post & T & P & L & S & C).
    cbv zeta in *. rewrite T.
    destruct (opening_views pre P) as (_ & _ & _ & _ & P5).
    destruct (looking_views look (look_looking c _ look L))
      as (_ & _ & _ & _ & L5).
    repeat (apply Forall_app; split); auto.
    - destruct S as [[-> ->]|(args & k & _ & _ & _ & _ & -> & ->)];
        repeat constructor.
    - destruct S as [[-> ->]|(args & k & _ & _ & _ & _ & -> & ->)];
        [constructor | apply (batch_views c args)].
    - destruct C as [->|[f ->]]; repeat constructor. }
  split; [exact F|]. split; intros J.
  - induction F as [|ev l Hev _ IH]; [reflexivity|].
    unfold downloaders in *. cbn [flat_map]. rewrite IH.
    destruct ev; try reflexivity. destruct Hev as [_ Hev]. congruence.
  - induction F as [|ev l Hev _ IH]; [reflexivity|].
    unfold encoders in *. cbn [flat_map]. rewrite IH.
    destruct ev; try reflexivity. destruct Hev as [_ Hev]. congruence.
Qed.
End Always.

(** X8.  The numeric flags are [uint] values converted with [int]: a value
    up to [MaxInt64] reaches the options unchanged, and a larger one wraps
    around and arrives negative (as [--retry 18446744073709551615], which
    gives [RetryTimes] -1). *)
Theorem numeric_options_wrap (c : cli.Context) (cookie : string) :
  (forall name, 0 <= cli.Uint c name < 2 ^ 64) ->
  (forall name,
     cli.Uint c name < 2 ^ 63 -> int (cli.Uint c name) = cli.Uint c name) /\
  (forall name,
     2 ^ 63 <= cli.Uint c name ->
     int (cli.Uint c name) = cli.Uint c name - 2 ^ 64 /\
     int (cli.Uint c name) < 0) /\
  ((forall name, cli.Uint c name < 2 ^ 63) ->
   request.RetryTimes (requestOptions c cookie) = cli.Uint c "retry" /\
   extractors.ItemStart (extractOptions c) = cli.Uint c "start" /\
   extractors.ItemEnd (extractOptions c) = cli.Uint c "end" /\
   extractors.ThreadNumber (extractOptions c) = cli.Uint c "thread" /\
   downloader.FileNameLength (downloaderOptions c)
   = cli.Uint c "file-name-length" /\
   downloader.ThreadNumber (downloaderOptions c) = cli.Uint c "thread" /\
   downloader.RetryTimes (downloaderOptions c) = cli.Uint c "retry" /\
   downloader.ChunkSizeMB (downloaderOptions c) = cli.Uint c "chunk-size") /\
  (cli.Uint c "retry" = 2 ^ 64 - 1 ->
   request.RetryTimes (requestOptions c cookie) = -1 /\
   downloader.RetryTimes (downloaderOptions c) = -1).
Proof.
  intros R.
  assert (S : forall name,
             cli.Uint c name < 2 ^ 63 -> int (cli.Uint c name) = cli.Uint c name).
  { intros name H. unfold int. specialize (R name).
    rewrite Z.mod_small by lia.
    destruct (cli.Uint c name <? 2 ^ 63) eqn:E; [reflexivity|].
    apply Z.ltb_ge in E. lia. }
  assert (L : forall name,
             2 ^ 63 <= cli.Uint c name ->
             int (cli.Uint c name) = cli.Uint c name - 2 ^ 64).
  { intros name H. unfold int. specialize (R name).
    rewrite Z.mod_small by lia.
    destruct (cli.Uint c name <? 2 ^ 63) eqn:E; [|reflexivity].
    apply Z.ltb_lt in E. lia. }
  split; [exact S|]. split.
  { intros name H. split; [now apply L|]. rewrite (L name H).
    specialize (R name). lia. }
  split.
  { intros H. cbn. rewrite !S by apply H. repeat split. }
  intros H. cbn. rewrite (L "retry") by (rewrite H; lia).
  rewrite H. split; reflexivity.
Qed.

Section Returns.
Context {Env File Payload : Type} `{W : World Env File Payload}.

(** X10.  What [Action] returns is never the error of a target: it is nil,
    or [cli.Exit] with code 1, or one of the three errors that stop the run
    before the batch: the error of [os.Open] on the input file, "too few
    arguments", or the error of [os.ReadFile] on the cookie file. *)
Theorem Action_returns (c : cli.Context) (env : Env) :
  let r := value (Action c env) in
  r = None \/
  r = Some (cli.Exit EmptyString 1) \/
  r = Some (errors.New "too few arguments") \/
  (exists err env0 env1,
      os_Open (cli.String c "file") env0 = (Failed err, env1) /\
      r = Some err) \/
  (exists err env0 env1,
      os_ReadFile (cli.String c "cookie") env0 = (Failed err, env1) /\
      r = Some err).
Proof.
  cbv zeta.
  destruct (Action_after_worklist c env) as [_ A]. cbv zeta in A.
  destruct (value (Action_worklist c env)) as [args|err] eqn:V.
  - destruct A as (post & _ & -> & _).
    set (env1 := world (Action_worklist c env)).
    destruct (Action_run_cases c args env1) as (R1 & R2 & R3).
    cbv zeta in *.
    destruct args as [|a args]; [rewrite R1 by reflexivity; auto|].
    destruct (value (Action_cookie c env1)) as [k|err] eqn:K.
    + rewrite (R3 ltac:(discriminate) k eq_refl), Action_batch_run.
      cbn [value fst]. destruct (existsb failed _); auto.
    + rewrite (R2 ltac:(discriminate) err eq_refl). cbn [value fst].
      do 4 right.
      destruct (string_dec (cli.String c "cookie") EmptyString) as [E|NE].
      * destruct (Action_cookie_cases c env1) as (C1 & _).
        rewrite (C1 E) in K. discriminate K.
      * destruct (os_Stat (cli.String c "cookie") env1)
          as [[fileErr|] env2] eqn:S.
        -- destruct (Action_cookie_cases c env1) as (_ & C2 & _).
           rewrite (C2 NE _ _ S) in K. discriminate K.
        -- destruct (os_ReadFile (cli.String c "cookie") env2)
             as [rd env3] eqn:Rd.
           destruct (Action_cookie_cases c env1) as (_ & _ & C3).
           rewrite (C3 NE _ _ _ S Rd) in K. cbn [value fst] in K.
           destruct rd as [data|err']; [discriminate K|].
           injection K as <-. exists err', env2, env3. auto.
  - rewrite A. cbn [value fst]. do 3 right. left.
    destruct (Action_worklist_cases c env) as (C1 & C2 & C3).
    cbv zeta in *.
    destruct (string_dec (cli.String c "file") EmptyString) as [E|NE].
    + rewrite (C1 E) in V. discriminate V.
    + destruct (os_Open (cli.String c "file") (world (Action_debug c env)))
        as [[f|err'] env1] eqn:O.
      * destruct (Action_worklist_cases c env) as (_ & _ & C3').
        cbv zeta in C3'. rewrite (C3' NE f env1 O) in V. discriminate V.
      * destruct (Action_worklist_cases c env) as (_ & C2' & _).
        cbv zeta in C2'. rewrite (C2' NE err' env1 O) in V.
        cbn [value fst] in V. injection V as <-.
        exists err', (world (Action_debug c env)), env1. auto.
Qed.
End Returns.

(* ================================================================== *)
(** * These theorems at work in the small world *)

Lemma with_unknown_flags_same (c : cli.Context) :
  same_flags c (with_unknown_flags c).
Proof.
  split; [reflexivity|]. unfold Flags.
  repeat (apply Forall_cons; [reflexivity|]). apply Forall_nil.
Qed.

Lemma Action_reads_declared_flags_witness :
  let c := Demo.context ["u1"; "bad"; "u2"] false "cookie.txt" "urls.txt" in
  cli.Bool c "verbose" <> cli.Bool (with_unknown_flags c) "verbose" /\
  Action (W := Demo.world) c true
  = Action (W := Demo.world) (with_unknown_flags c) true.
Proof.
  cbv zeta. split; [discriminate|].
  exact (Action_reads_declared_flags (W := Demo.world)
           (Demo.context ["u1"; "bad"; "u2"] false "cookie.txt" "urls.txt")
           (with_unknown_flags
              (Demo.context ["u1"; "bad"; "u2"] false "cookie.txt" "urls.txt"))
           true (with_unknown_flags_same _) (fun _ => eq_refl)).
Defined.

Lemma Action_closes_input_file_witness :
  let c := Demo.context [] false "locked.txt" "urls.txt" in
  let c' := Demo.context ["u1"] false EmptyString "missing.txt" in
  (exists l,
      trace (Action (W := Demo.world) c true)
      = l ++ [Close ["u2"; "u1"; "u2"]] /\ closed l = []) /\
  value (Action (W := Demo.world) c true)
  = Some (errorString "read: permission denied") /\
  closed (trace (Action (W := Demo.world) c' true)) = [].
Proof.
  cbv zeta.
  destruct (Action_closes_input_file (W := Demo.world)
              (Demo.context [] false "locked.txt" "urls.txt") true)
    as (A & _).
  destruct (Action_closes_input_file (W := Demo.world)
              (Demo.context ["u1"] false EmptyString "missing.txt") true)
    as (_ & B & _).
  split; [exact (A ltac:(discriminate) ["u2"; "u1"; "u2"] true eq_refl)|].
  split; [reflexivity|].
  exact (B ltac:(discriminate)
           (errorString "open: no such file or directory") true eq_refl).
Defined.

Lemma Action_looks_up_cookie_once_witness :
  let c := Demo.context ["u1"; "u2"; "u3"] false "cookie.txt" "urls.txt" in
  let c' := Demo.context ["u1"; "u2"; "u3"] false EmptyString "urls.txt" in
  filter looking (trace (Action (W := Demo.world) c true))
  = [Stat "cookie.txt"; ReadFile "cookie.txt"] /\
  filter looking (trace (Action (W := Demo.world) c' true)) = [].
Proof.
  cbv zeta.
  destruct (Action_looks_up_cookie_once (W := Demo.world)
              (Demo.context ["u1"; "u2"; "u3"] false "cookie.txt" "urls.txt")
              true) as ([A|[A|A]] & _); try discriminate A.
  destruct (Action_looks_up_cookie_once (W := Demo.world)
              (Demo.context ["u1"; "u2"; "u3"] false EmptyString "urls.txt")
              true) as (_ & B).
  split; [exact A | exact (B eq_refl)].
Defined.


Lemma Action_collaborators_configured_witness :
  let c := Demo.context ["u1"; "u2"] true EmptyString EmptyString in
  let c' := Demo.context ["u1"; "u2"] false EmptyString EmptyString in
  downloaders (trace (Action (W := Demo.world) c true)) = [] /\
  encoders (trace (Action (W := Demo.world) c true))
  = [jsonEncoder; jsonEncoder] /\
  encoders (trace (Action (W := Demo.world) c' true)) = [].
Proof.
  cbv zeta.
  destruct (Action_collaborators_configured (W := Demo.world)
              (Demo.context ["u1"; "u2"] true EmptyString EmptyString) true)
    as (_ & A & _).
  destruct (Action_collaborators_configured (W := Demo.world)
              (Demo.context ["u1"; "u2"] false EmptyString EmptyString) true)
    as (_ & _ & B).
  split; [exact (A eq_refl)|]. split; [reflexivity | exact (B eq_refl)].
Defined.

Lemma Demo_uint_range (args : list string) (json : bool)
    (cookie file : string) (name : string) :
  0 <= cli.Uint (Demo.context args json cookie file) name < 2 ^ 63.
Proof.
  cbn. repeat match goal with
              | |- context [if ?b then _ else _] => destruct b
              end; lia.
Qed.

Lemma numeric_options_wrap_witness :
  let c := Demo.context ["u1"] false EmptyString EmptyString in
  let c' := with_retry c (2 ^ 64 - 1) in
  request.RetryTimes (requestOptions c EmptyString) = 10 /\
  downloader.ChunkSizeMB (downloaderOptions c) = 1 /\
  request.RetryTimes (requestOptions c' EmptyString) = -1 /\
  downloader.RetryTimes (downloaderOptions c') = -1.
Proof.
  cbv zeta.
  assert (R : forall name,
             0 <= cli.Uint (Demo.context ["u1"] false EmptyString EmptyString)
                    name < 2 ^ 64).
  { intros name. pose proof (Demo_uint_range ["u1"] false EmptyString
                               EmptyString name). lia. }
  assert (R' : forall name,
             0 <= cli.Uint
                    (with_retry
                       (Demo.context ["u1"] false EmptyString EmptyString)
                       (2 ^ 64 - 1)) name < 2 ^ 64).
  { intros name. cbn [with_retry cli.Uint].
    destruct (name =? "retry")%string; [lia | apply R]. }
  destruct (numeric_options_wrap
              (Demo.context ["u1"] false EmptyString EmptyString)
              EmptyString R) as (_ & _ & A & _).
  destruct (numeric_options_wrap
              (with_retry (Demo.context ["u1"] false EmptyString EmptyString)
                 (2 ^ 64 - 1))
              EmptyString R') as (_ & _ & _ & B).
  destruct (A (fun name => proj2 (Demo_uint_range _ _ _ _ name)))
    as (A1 & _ & _ & _ & _ & _ & _ & A8).
  destruct (B eq_refl) as (B1 & B2).
  split; [exact A1|]. split; [exact A8|]. split; [exact B1 | exact B2].
Defined.
